(** * yt_dlp/networking/_urllib3.py : the urllib3 transport backend

    A shallow embedding of [Urllib3RH], [Urllib3ResponseAdapter],
    [Urllib3HTTPError], the error translators [handle_read_errors] and
    [handle_protocol_error], and [SocksHTTPConnection._new_conn].

    Python exceptions are values of an explicit outcome type; the mutable
    handler object ([self.pools], [self.cookiejar]) is threaded as state.
    What the module imports from urllib3, http.cookiejar and urllib.parse is
    either a Section variable (the outcome of [urlopen], [parse_url], the
    cookie policy) or a small definition whose comment names its origin. *)

From stdpp Require Import gmap strings list pretty.
From Stdlib Require Import ZArith Ascii.

Local Open Scope Z_scope.
Set Warnings "-register-all,-clear-no-such-hyp".

(** ** Python strings *)

Module Py.

Definition is_upper (c : ascii) : bool :=
  let n := nat_of_ascii c in (65 <=? n)%nat && (n <=? 90)%nat.

Definition is_lower (c : ascii) : bool :=
  let n := nat_of_ascii c in (97 <=? n)%nat && (n <=? 122)%nat.

Definition is_digit (c : ascii) : bool :=
  let n := nat_of_ascii c in (48 <=? n)%nat && (n <=? 57)%nat.

Definition is_alpha (c : ascii) : bool := is_upper c || is_lower c.

Definition lower_ascii (c : ascii) : ascii :=
  if is_upper c then ascii_of_nat (nat_of_ascii c + 32) else c.

(** [str.lower()] on ASCII text *)
Fixpoint lower (s : string) : string :=
  match s with
  | EmptyString => EmptyString
  | String c t => String (lower_ascii c) (lower t)
  end.

(** [s.startswith(p)] *)
Fixpoint startswith (p s : string) : bool :=
  match p, s with
  | EmptyString, _ => true
  | String a p', String b s' => bool_decide (a = b) && startswith p' s'
  | String _ _, EmptyString => false
  end.

(** [needle in hay] *)
Fixpoint contains (needle hay : string) : bool :=
  startswith needle hay ||
  match hay with
  | EmptyString => false
  | String _ t => contains needle t
  end.

(** truth value of a [str] *)
Definition truthy (s : string) : bool :=
  match s with EmptyString => false | _ => true end.

(** [s.partition(sep)] for a one-character separator: the text before the
    first occurrence, whether the separator was found, the text after it *)
Fixpoint partition (sep : ascii) (s : string) : string * bool * string :=
  match s with
  | EmptyString => (EmptyString, false, EmptyString)
  | String c t =>
      if bool_decide (c = sep) then (EmptyString, true, t)
      else let '(a, f, b) := partition sep t in (String c a, f, b)
  end.

(** [s.rpartition(sep)]: split at the last occurrence; when the separator
    is absent Python returns [('', '', s)] *)
Fixpoint rpartition (sep : ascii) (s : string) : string * bool * string :=
  match s with
  | EmptyString => (EmptyString, false, EmptyString)
  | String c t =>
      let '(a, f, b) := rpartition sep t in
      if f then (String c a, true, b)
      else if bool_decide (c = sep) then (EmptyString, true, t)
      else (EmptyString, false, String c b)
  end.

Fixpoint has_char (c : ascii) (s : string) : bool :=
  match s with
  | EmptyString => false
  | String d t => bool_decide (c = d) || has_char c t
  end.

Fixpoint all_chars (p : ascii -> bool) (s : string) : bool :=
  match s with
  | EmptyString => true
  | String c t => p c && all_chars p t
  end.

(** [', '.join(l)] and friends *)
Fixpoint join (sep : string) (l : list string) : string :=
  match l with
  | [] => EmptyString
  | [x] => x
  | x :: t => x +:+ sep +:+ join sep t
  end.

(** Values that cross the translation boundary untouched: the attributes
    [partial] and [expected] of an incomplete read are an [int], a [bytes]
    object or [None], depending on which library raised it. *)
Inductive pyval : Type :=
  | PyNone
  | PyInt (z : Z)
  | PyBytes (b : list Byte.byte).

End Py.

(** ** Exception objects *)

(** The exception classes the module names, whether in an [except] clause, an
    [isinstance] test or a [raise]; any other class is [OtherClass]. *)
Inductive exc_class : Type :=
  | U3_HTTPError            (* urllib3.exceptions.HTTPError *)
  | U3_ProtocolError
  | U3_ReadTimeoutError
  | U3_IncompleteRead
  | U3_SSLError
  | U3_MaxRetryError
  | U3_ConnectTimeoutError
  | U3_ProxyError
  | U3_NewConnectionError
  | HC_IncompleteRead       (* http.client.IncompleteRead *)
  | Py_TimeoutError         (* builtins *)
  | Py_OSError
  | Py_AttributeError
  | Py_UnboundLocalError
  | Py_ValueError
  | SocksProxyError         (* .socksproxy.ProxyError *)
  | OtherClass (qualname : string).

#[global] Instance exc_class_eq_dec : EqDecision exc_class.
Proof. solve_decision. Defined.

(** A raised backend exception.  [mro] is [type(e).__mro__], so that
    [isinstance] is list membership and no class table of a particular urllib3
    release is built in.  An attribute that the object does not have is
    [None]; reading it raises [AttributeError]. *)
Inductive raw_exc : Type := RawExc {
  mro : list exc_class;
  str_ : string;                    (* str(e) *)
  args_str : string;                (* str(e.args) *)
  cause : option raw_exc;           (* e.__cause__ *)
  reason : option raw_exc;          (* MaxRetryError.reason *)
  partial : option Py.pyval;        (* e.partial *)
  expected : option Py.pyval;       (* e.expected *)
}.

Definition isinstance (e : raw_exc) (c : exc_class) : bool :=
  bool_decide (c ∈ mro e).

Definition isinstance_any (e : raw_exc) (cs : list exc_class) : bool :=
  existsb (isinstance e) cs.

(** the [AttributeError] Python raises for [obj.attr] *)
Definition attribute_error (attr : string) : raw_exc :=
  {| mro := [Py_AttributeError]; str_ := "object has no attribute '" +:+ attr +:+ "'";
     args_str := attr; cause := None; reason := None;
     partial := None; expected := None |}.

Definition unbound_local_error (name : string) : raw_exc :=
  {| mro := [Py_UnboundLocalError]; str_ := "local variable '" +:+ name +:+ "' referenced before assignment";
     args_str := name; cause := None; reason := None;
     partial := None; expected := None |}.

Definition value_error (msg : string) : raw_exc :=
  {| mro := [Py_ValueError]; str_ := msg; args_str := msg; cause := None;
     reason := None; partial := None; expected := None |}.

(** ** urllib.parse (imported through [..compat]) *)

(** [urlparse], [ParseResult.hostname], [_replace] and [geturl] as CPython
    defines them for [str] input free of control characters. *)
Module UrlParse.

Record ParseResult : Type := {
  scheme : string;
  netloc : string;
  path : string;
  params : string;
  query : string;
  fragment : string;
}.

Definition scheme_char (c : ascii) : bool :=
  Py.is_alpha c || Py.is_digit c ||
  bool_decide (c = "+"%char) || bool_decide (c = "-"%char) || bool_decide (c = "."%char).

Definition uses_netloc : list string :=
  [EmptyString; "ftp"; "http"; "gopher"; "nntp"; "telnet"; "imap"; "wais"; "file";
   "mms"; "https"; "shttp"; "snews"; "prospero"; "rtsp"; "rtspu"; "rsync";
   "svn"; "svn+ssh"; "sftp"; "nfs"; "git"; "git+ssh"; "ws"; "wss"].

Definition uses_params : list string :=
  [EmptyString; "ftp"; "hdl"; "prospero"; "http"; "imap"; "https"; "shttp"; "rtsp";
   "rtspu"; "sip"; "sips"; "mms"; "sftp"; "tel"].

(** the leading [scheme:] of [urlsplit] *)
Definition split_scheme (url : string) : string * string :=
  let '(pre, found, rest) := Py.partition ":"%char url in
  match pre with
  | String c0 _ =>
      if found && Py.is_alpha c0 && Py.all_chars scheme_char pre
      then (Py.lower pre, rest) else (EmptyString, url)
  | EmptyString => (EmptyString, url)
  end.

(** [_splitnetloc(url, 2)] applied after the leading [//] was removed: the
    network location runs up to the first of [/], [?], [#] *)
Fixpoint splitnetloc (s : string) : string * string :=
  match s with
  | EmptyString => (EmptyString, EmptyString)
  | String c t =>
      if bool_decide (c = "/"%char) || bool_decide (c = "?"%char) || bool_decide (c = "#"%char)
      then (EmptyString, s)
      else let '(n, r) := splitnetloc t in (String c n, r)
  end.

(** [urlsplit]: [None] is the [ValueError] for an unbalanced IPv6 bracket *)
Definition urlsplit (url0 : string) : option (string * string * string * string * string) :=
  let '(scheme, url1) := split_scheme url0 in
  let '(netloc, url2) :=
    match url1 with
    | String "/" (String "/" t) => splitnetloc t
    | _ => (EmptyString, url1)
    end in
  if xorb (Py.has_char "["%char netloc) (Py.has_char "]"%char netloc) then None
  else
    let '(url3, fragment) :=
      let '(a, _, b) := Py.partition "#"%char url2 in (a, b) in
    let '(url4, query) :=
      let '(a, _, b) := Py.partition "?"%char url3 in (a, b) in
    Some (scheme, netloc, url4, query, fragment).

Definition splitparams (url : string) : string * string :=
  let '(a, has_slash, b) := Py.rpartition "/"%char url in
  if has_slash then
    let '(b1, found, b2) := Py.partition ";"%char b in
    if found then (a +:+ "/" +:+ b1, b2) else (url, EmptyString)
  else
    let '(u1, _, p) := Py.partition ";"%char url in (u1, p).

Definition urlparse (url : string) : option ParseResult :=
  match urlsplit url with
  | None => None
  | Some (scheme, netloc, url', query, fragment) =>
      let '(url'', params) :=
        if bool_decide (scheme ∈ uses_params) && Py.has_char ";"%char url'
        then splitparams url' else (url', EmptyString) in
      Some {| scheme := scheme; netloc := netloc; path := url'';
              params := params; query := query; fragment := fragment |}
  end.

(** [ParseResult.hostname]: [None] when the host part of [netloc] is empty *)
Definition hostname (p : ParseResult) : option string :=
  let '(_, _, hostinfo) := Py.rpartition "@"%char (netloc p) in
  let '(_, have_open_br, bracketed) := Py.partition "["%char hostinfo in
  let host :=
    if have_open_br then let '(h, _, _) := Py.partition "]"%char bracketed in h
    else let '(h, _, _) := Py.partition ":"%char hostinfo in h in
  if Py.truthy host then
    let '(h, percent, zone) := Py.partition "%"%char host in
    Some (Py.lower h +:+ (if percent then "%" else EmptyString) +:+ zone)
  else None.

Definition urlunsplit (scheme netloc url query fragment : string) : string :=
  let url :=
    if Py.truthy netloc ||
       (Py.truthy scheme && bool_decide (scheme ∈ uses_netloc) && negb (Py.startswith "//" url))
    then "//" +:+ netloc +:+
         (if Py.truthy url && negb (Py.startswith "/" url) then "/" +:+ url else url)
    else url in
  let url := if Py.truthy scheme then scheme +:+ ":" +:+ url else url in
  let url := if Py.truthy query then url +:+ "?" +:+ query else url in
  if Py.truthy fragment then url +:+ "#" +:+ fragment else url.

(** [ParseResult.geturl()], that is [urlunparse(self)] *)
Definition geturl (p : ParseResult) : string :=
  let url := if Py.truthy (params p) then path p +:+ ";" +:+ params p else path p in
  urlunsplit (scheme p) (netloc p) url (query p) (fragment p).

(** [p._replace(netloc=n, scheme=s)] *)
Definition replace_netloc_scheme (p : ParseResult) (n s : string) : ParseResult :=
  {| scheme := s; netloc := n; path := path p; params := params p;
     query := query p; fragment := fragment p |}.

End UrlParse.

(** ** urllib3.util.url.Url *)

Module U3Url.

Record Url : Type := {
  scheme : option string;
  auth : option string;
  host : option string;
  port : option Z;
  path : option string;
  query : option string;
  fragment : option string;
}.

(** [u._replace(scheme=s)] *)
Definition replace_scheme (u : Url) (s : option string) : Url :=
  {| scheme := s; auth := auth u; host := host u; port := port u;
     path := path u; query := query u; fragment := fragment u |}.

Definition opt_str (pre : string) (o : option string) : string :=
  match o with Some s => pre +:+ s | None => EmptyString end.

(** the [url] property: the pieces that are not [None], in order *)
Definition url (u : Url) : string :=
  match scheme u with Some s => s +:+ "://" | None => EmptyString end +:+
  match auth u with Some a => a +:+ "@" | None => EmptyString end +:+
  opt_str EmptyString (host u) +:+
  match port u with Some p => ":" +:+ pretty p | None => EmptyString end +:+
  opt_str EmptyString (path u) +:+
  opt_str "?" (query u) +:+
  opt_str "#" (fragment u).

End U3Url.

(** ** Header collections *)

(** The operations of the header store that [_real_handle] uses:
    construction from layers, [in], item assignment, [del], [keys()] and
    [dict(...)]. *)
Module Headers.

(** Modelled from the spec: [UniqueHTTPHeaderStore] of [.common], which is not
    among the sources.  The spec describes a header collection that is
    case-insensitive and preserves insertion order, layered so that a later
    source overrides an earlier one; "unique" keeps one value per name.  A
    store is the list of its [(name, value)] items in insertion order. *)
Definition store : Type := list (string * string).

Definition name_eqb (a b : string) : bool :=
  bool_decide (Py.lower a = Py.lower b).

(** [name in h] *)
Definition contains (name : string) (h : store) : bool :=
  existsb (fun kv => name_eqb name kv.1) h.

(** [h[name]] as [h.get(name)] *)
Definition get (name : string) (h : store) : option string :=
  snd <$> List.find (fun kv => name_eqb name kv.1) h.

(** [del h[name]] *)
Definition del (name : string) (h : store) : store :=
  List.filter (fun kv => negb (name_eqb name kv.1)) h.

(** [h[name] = value] *)
Definition set (name value : string) (h : store) : store :=
  if contains name h
  then List.map (fun kv => if name_eqb name kv.1 then (kv.1, value) else kv) h
  else h ++ [(name, value)].

Definition update (h src : store) : store :=
  fold_left (fun acc kv => set kv.1 kv.2 acc) src h.

(** [UniqueHTTPHeaderStore(layer, ...)]; a layer may be [None] *)
Definition make (layers : list (option store)) : store :=
  fold_left (fun acc l => match l with Some s => update acc s | None => acc end)
            layers [].

Definition keys (h : store) : list string := List.map fst h.

End Headers.

(** ** Requests, connections and responses *)

Record Request : Type := {
  req_method : string;
  req_url : string;
  req_headers : Headers.store;
  req_unredirected_headers : Headers.store;
  req_data : option (list Byte.byte);
  req_proxy : option string;
  req_timeout : Z;
  req_compression : bool;
}.

(** a live connection object; [conn_id] is its identity *)
Record connection : Type := {
  conn_id : nat;
  conn_host : string;
  conn_port : Z;
}.

(** What the module touches of a urllib3 [HTTPResponse]: the value of
    [geturl()], the [_connection] slot, headers, status, version, the
    [retries.total] counter, and whether the instance attribute
    [release_conn] has been replaced by [release_conn_override]. *)
Record u3_response : Type := {
  u3_geturl : option string;
  u3_connection : option connection;
  u3_headers : Headers.store;
  u3_status : Z;
  u3_version : Z;
  u3_retries_total : option Z;
  u3_release_conn_overridden : bool;
}.

Definition with_connection (r : u3_response) (c : option connection) : u3_response :=
  {| u3_geturl := u3_geturl r; u3_connection := c; u3_headers := u3_headers r;
     u3_status := u3_status r; u3_version := u3_version r;
     u3_retries_total := u3_retries_total r;
     u3_release_conn_overridden := u3_release_conn_overridden r |}.

Definition with_release_override (r : u3_response) : u3_response :=
  {| u3_geturl := u3_geturl r; u3_connection := u3_connection r;
     u3_headers := u3_headers r; u3_status := u3_status r;
     u3_version := u3_version r; u3_retries_total := u3_retries_total r;
     u3_release_conn_overridden := true |}.

(** [Urllib3ResponseAdapter]: the fields [_res] and [_url] and what
    [HTTPResponse.__init__] receives *)
Record Response : Type := {
  _res : u3_response;
  _url : option string;
  headers : Headers.store;
  status : Z;
  http_version : Z;
}.

(** ** The error taxonomy of [..utils] *)

Inductive Error : Type :=
  | TransportError (msg : string) (cause : raw_exc)
  | ConnectTimeoutError (cause : raw_exc)
  | ReadTimeoutError (cause : raw_exc)
  | IncompleteRead (partial expected : Py.pyval) (cause : raw_exc)
  | SSLError (msg : string) (cause : raw_exc)
  | ProxyError (msg : string) (cause : raw_exc)
  | HTTPError (response : Response) (redirect_loop : bool).

Inductive ErrorKind : Type :=
  | KTransport | KConnectTimeout | KReadTimeout | KIncompleteRead
  | KTLS | KProxy | KHTTPStatus | KRedirectLoop.

#[global] Instance ErrorKind_eq_dec : EqDecision ErrorKind.
Proof. solve_decision. Defined.

(** The class that is raised decides the kind.  The module has no class for a
    redirect loop: it raises [HTTPError] with the flag [redirect_loop]. *)
Definition kind_of (e : Error) : ErrorKind :=
  match e with
  | TransportError _ _ => KTransport
  | ConnectTimeoutError _ => KConnectTimeout
  | ReadTimeoutError _ => KReadTimeout
  | IncompleteRead _ _ _ => KIncompleteRead
  | SSLError _ _ => KTLS
  | ProxyError _ _ => KProxy
  | HTTPError _ _ => KHTTPStatus
  end.

(** what a [raise] statement throws: a typed error or a backend exception *)
Inductive exc : Type :=
  | Typed (e : Error)
  | Raw (e : raw_exc).

Inductive outcome (A : Type) : Type :=
  | Ret (a : A)
  | Raise (x : exc).
Arguments Ret {A} a.
Arguments Raise {A} x.

(** ** The error translators *)

Definition incomplete_read_marker : string := "incomplete read".

(** [handle_protocol_error(e)]; [None] when the function returns without
    raising, which happens only if [e] is not a [ProtocolError].  An
    exception object is truthy, so [if original_cause:] tests for [None]. *)
Definition handle_protocol_error (e : raw_exc) : option exc :=
  if isinstance e U3_ProtocolError then
    let original_cause := cause e in
    if match original_cause with
       | Some c => isinstance c HC_IncompleteRead
       | None => false
       end || Py.contains incomplete_read_marker (Py.lower (str_ e))
    then
      match original_cause with
      | Some c =>
          match partial c with
          | None => Some (Raw (attribute_error "partial"))
          | Some p =>
              match expected c with
              | None => Some (Raw (attribute_error "expected"))
              | Some x => Some (Typed (IncompleteRead p x e))
              end
          end
      | None => Some (Typed (TransportError (str_ e) e))
      end
    else Some (Typed (TransportError (str_ e) e))
  else None.

Definition READ_ERRORS : list exc_class :=
  [U3_ReadTimeoutError; U3_IncompleteRead; U3_SSLError].

(** [handle_read_errors(e)]: [raise e] inside a [try]; when no clause
    matches, [e] itself propagates *)
Definition handle_read_errors (e : raw_exc) : exc :=
  if isinstance e U3_ReadTimeoutError then Typed (ReadTimeoutError e)
  else if isinstance e U3_IncompleteRead then
    match partial e with
    | None => Raw (attribute_error "partial")
    | Some p =>
        match expected e with
        | None => Raw (attribute_error "expected")
        | Some x => Typed (IncompleteRead p x e)
        end
    end
  else if isinstance e U3_SSLError then
    Typed (SSLError (match cause e with
                     | Some c => args_str c
                     | None => str_ e
                     end) e)
  else Raw e.

(** whether the object has the attributes [partial] and [expected] *)
Definition has_counts (e : raw_exc) : bool :=
  match partial e, expected e with
  | Some _, Some _ => true
  | _, _ => false
  end.

(** The faults the translators are written for: instances of urllib3's
    [HTTPError] that carry [partial] and [expected] wherever a translator
    reads them.  For a [ProtocolError] that is: its cause, if there is one,
    is an [http.client.IncompleteRead] with both attributes, or else the
    message does not send the translator to the cause's attributes. *)
Definition urllib3_fault (e : raw_exc) : bool :=
  isinstance e U3_HTTPError
  && (if isinstance e U3_IncompleteRead then has_counts e else true)
  && (if isinstance e U3_ProtocolError then
        match cause e with
        | Some c =>
            if isinstance c HC_IncompleteRead then has_counts c
            else negb (Py.contains incomplete_read_marker (Py.lower (str_ e)))
        | None => true
        end
      else true).

(** the urllib3 classes that the [except] clauses of the module name *)
Definition caught_classes : list exc_class :=
  [U3_ConnectTimeoutError; U3_ProxyError; U3_ReadTimeoutError; U3_IncompleteRead;
   U3_SSLError; U3_ProtocolError; U3_HTTPError].

(** the kinds a translated backend fault can have *)
Definition translated_kinds : list ErrorKind :=
  [KTransport; KConnectTimeout; KReadTimeout; KIncompleteRead; KTLS; KProxy].

(** ** [Urllib3ResponseAdapter] *)

(** [__init__(self, res)], for a [str] URL.  [ValueError] is what [urlparse]
    raises; [AttributeError] is [res.connection.host] on a response whose
    connection is gone. *)
Definition Urllib3ResponseAdapter (res : u3_response) : outcome Response :=
  let mk url := {| _res := res; _url := url; headers := u3_headers res;
                   status := u3_status res; http_version := u3_version res |} in
  match u3_geturl res with
  | Some u =>
      if Py.truthy u then
        match UrlParse.urlparse u with
        | None => Raise (Raw (value_error "Invalid IPv6 URL"))
        | Some url_parsed =>
            match UrlParse.hostname url_parsed with
            | None =>
                match u3_connection res with
                | None => Raise (Raw (attribute_error "host"))
                | Some c =>
                    let netloc := conn_host c +:+ ":" +:+ pretty (conn_port c) in
                    Ret (mk (Some (UrlParse.geturl
                           (UrlParse.replace_netloc_scheme url_parsed netloc "https"))))
                end
            | Some _ => Ret (mk (Some (UrlParse.geturl url_parsed)))
            end
        end
      else Ret (mk (Some u))
  | None => Ret (mk None)
  end.

Definition geturl (r : Response) : option string := _url r.

(** [read(self, amt)], given what [self._res.read(amt)] did *)
Definition read (res_read : raw_exc + list Byte.byte) : outcome Py.pyval :=
  match res_read with
  | inr data => Ret (Py.PyBytes data)
  | inl e =>
      if isinstance_any e READ_ERRORS then Raise (handle_read_errors e)
      else if isinstance e U3_ProtocolError then
        match handle_protocol_error e with
        | Some x => Raise x
        | None => Ret Py.PyNone
        end
      else if isinstance e U3_HTTPError then
        Raise (Typed (TransportError (str_ e) e))
      else Raise (Raw e)
  end.

(** ** [Urllib3HTTPError] and the release of a connection *)

(** [Urllib3HTTPError(response, redirect_loop=...)]: the constructor replaces
    [response._res.release_conn] and then builds the [HTTPError] *)
Definition Urllib3HTTPError (response : Response) (redirect_loop : bool) : Error :=
  HTTPError {| _res := with_release_override (_res response);
               _url := _url response; headers := headers response;
               status := status response; http_version := http_version response |}
            redirect_loop.

(** the connections a pool holds idle, and the connections that were closed *)
Record conn_world : Type := {
  idle : list connection;
  closed : list connection;
}.

(** [res.release_conn()].  With the override installed it is
    [release_conn_override]: close the connection and forget it.  Otherwise it
    is urllib3's method, which puts the connection back into its pool. *)
Definition release_conn (w : conn_world) (r : u3_response) : conn_world * u3_response :=
  match u3_connection r with
  | Some c =>
      if u3_release_conn_overridden r
      then ({| idle := idle w; closed := c :: closed w |}, with_connection r None)
      else ({| idle := c :: idle w; closed := closed w |}, with_connection r None)
  | None => (w, r)
  end.

(** [res.close()] of urllib3: closes the connection it still holds *)
Definition close_res (w : conn_world) (r : u3_response) : conn_world * u3_response :=
  match u3_connection r with
  | Some c => ({| idle := idle w; closed := c :: closed w |}, r)
  | None => (w, r)
  end.

(** what a caller can later do with the response carried by an error *)
Inductive res_op : Type := OpReleaseConn | OpClose.

Fixpoint run_ops (ops : list res_op) (w : conn_world) (r : u3_response)
  : conn_world * u3_response :=
  match ops with
  | [] => (w, r)
  | OpReleaseConn :: t => let '(w', r') := release_conn w r in run_ops t w' r'
  | OpClose :: t => let '(w', r') := close_res w r in run_ops t w' r'
  end.

(** ** [SocksHTTPConnection._new_conn] *)

(** an instance of [cls] built without arguments and raised [from e] *)
Definition raise_from (cls : exc_class) (bases : list exc_class) (e : raw_exc) : raw_exc :=
  {| mro := cls :: bases; str_ := EmptyString; args_str := "()";
     cause := Some e; reason := None; partial := None; expected := None |}.

(** the [TypeError] of a call that lacks required arguments; it is raised
    while another exception is handled and has no cause of its own *)
Definition type_error (msg : string) : raw_exc :=
  {| mro := [OtherClass "TypeError"]; str_ := msg; args_str := "('" +:+ msg +:+ "',)";
     cause := None; reason := None; partial := None; expected := None |}.

(** [raise cls from e] with a urllib3 class in place of an instance: Python
    calls the class without arguments.  [ConnectTimeoutError] can be built
    that way.  The constructors of [ProxyError] (message, error) and of
    [NewConnectionError] (pool, message, from [PoolError]) have required
    arguments, so for them the statement raises [TypeError] instead. *)
Definition raise_class_from (cls : exc_class) (e : raw_exc) : raw_exc :=
  match cls with
  | U3_ProxyError =>
      type_error
        "ProxyError.__init__() missing 2 required positional arguments: 'message' and 'error'"
  | U3_NewConnectionError =>
      type_error
        "PoolError.__init__() missing 2 required positional arguments: 'pool' and 'message'"
  | U3_ConnectTimeoutError =>
      raise_from cls [OtherClass "urllib3.exceptions.TimeoutError"; U3_HTTPError] e
  | _ => raise_from cls [U3_HTTPError] e
  end.

(** [_new_conn(self)], given what [sock.connect((host, port))] did; the
    proxy arguments and the timeout set on the socket beforehand only shape
    that outcome *)
Definition _new_conn {sock : Type} (connect : raw_exc + sock) : outcome sock :=
  match connect with
  | inr s => Ret s
  | inl e =>
      if isinstance e Py_TimeoutError then
        Raise (Raw (raise_class_from U3_ConnectTimeoutError e))
      else if isinstance e SocksProxyError then
        Raise (Raw (raise_class_from U3_ProxyError e))
      else if isinstance e Py_OSError then
        Raise (Raw (raise_class_from U3_NewConnectionError e))
      else Raise (Raw e)
  end.

(** ** Pool managers *)

Record ydl_params : Type := {
  http_headers : option Headers.store;
  source_address : option string;
  compat_opts : list string;
}.

(** [pm_args]; the TLS context is [make_ssl_context(self.ydl.params)] *)
Record pm_args : Type := {
  ssl_context : ydl_params;
  pm_source_address : option (string * Z);
}.

Inductive pm_kind : Type :=
  | PoolManager
  | ProxyManager (proxy_url : string)
  | SocksProxyManager (socks_proxy : string).

(** a pool manager object; [pm_id] is its identity *)
Record pool_manager : Type := {
  pm_id : nat;
  pm_kind_of : pm_kind;
  pm_args_of : pm_args;
}.

(** [urllib3.Retry(...)] as the module configures it *)
Record Retry : Type := {
  remove_headers_on_redirect : list string;
  raise_on_redirect : bool;
  other : Z;
  retry_read : Z;
  retry_connect : Z;
}.

(** the keyword arguments of [urlopen] *)
Record urlopen_args : Type := {
  arg_method : string;
  arg_url : string;
  arg_request_url : string;
  arg_headers : Headers.store;
  arg_body : option (list Byte.byte);
  arg_preload_content : bool;
  arg_timeout : Z;
  arg_retries : Retry;
  arg_redirect : bool;
}.

(** python's [x or default] on an optional string *)
Definition str_truthy (o : option string) : bool :=
  match o with Some s => Py.truthy s | None => false end.

(** the truth value of an optional port number *)
Definition port_truthy (o : option Z) : bool :=
  match o with Some p => negb (p =? 0) | None => false end.

(** ** urllib3 1.26: pools, proxies and redirects *)

(** The parts of urllib3 that decide what the module's calls do: which
    exceptions the managers raise when they are built, which connection pool
    serves a URL, and what [PoolManager.urlopen] does with the headers when
    it follows a redirect.  They are written after urllib3 1.26.20. *)
Module U3.

(** [port_by_scheme.get(scheme)] *)
Definition port_by_scheme (scheme : string) : option Z :=
  if bool_decide (scheme = "http") then Some 80
  else if bool_decide (scheme = "https") then Some 443
  else None.

(** [NORMALIZABLE_SCHEMES] *)
Definition normalizable (scheme : option string) : bool :=
  bool_decide (scheme ∈ [Some "http"; Some "https"; None]).

(** [_normalize_host(host, scheme)] for a host written in ASCII that is not
    an IPv6 literal: lower-cased when the scheme is http, https or absent *)
Definition normalize_host (host : string) (scheme : option string) : string :=
  if Py.truthy host && normalizable scheme then Py.lower host else host.

Definition location_value_error (msg : string) : raw_exc :=
  {| mro := [OtherClass "urllib3.exceptions.LocationValueError"; Py_ValueError;
             U3_HTTPError];
     str_ := msg; args_str := "('" +:+ msg +:+ "',)"; cause := None;
     reason := None; partial := None; expected := None |}.

(** [URLSchemeUnknown(scheme)] *)
Definition url_scheme_unknown (scheme : string) : raw_exc :=
  let msg := "Not supported URL scheme " +:+ scheme in
  {| mro := [OtherClass "urllib3.exceptions.URLSchemeUnknown";
             OtherClass "urllib3.exceptions.LocationValueError"; Py_ValueError;
             U3_HTTPError];
     str_ := msg; args_str := "('" +:+ msg +:+ "',)"; cause := None;
     reason := None; partial := None; expected := None |}.

(** [ProxySchemeUnknown(scheme)] *)
Definition proxy_scheme_unknown (scheme : option string) : raw_exc :=
  let scheme := if bool_decide (scheme = Some "localhost") then None else scheme in
  let msg :=
    match scheme with
    | None => "Proxy URL had no scheme, should start with http:// or https://"
    | Some s =>
        "Proxy URL had unsupported scheme " +:+ s +:+ ", should use http:// or https://"
    end in
  {| mro := [OtherClass "urllib3.exceptions.ProxySchemeUnknown";
             OtherClass "AssertionError";
             OtherClass "urllib3.exceptions.URLSchemeUnknown";
             OtherClass "urllib3.exceptions.LocationValueError"; Py_ValueError;
             U3_HTTPError];
     str_ := msg; args_str := "('" +:+ msg +:+ "',)"; cause := None;
     reason := None; partial := None; expected := None |}.

(** a connection pool, as far as [is_same_host] reads it *)
Record conn_pool : Type := {
  cp_scheme : string;
  cp_host : string;
  cp_port : option Z;
}.

(** [PoolManager.connection_from_host(host, port, scheme)]: the pool for a
    scheme, host and port; the port defaults to the one of the scheme *)
Definition connection_from_host (host : option string) (port : option Z)
    (scheme : option string) : raw_exc + conn_pool :=
  match host with
  | Some h =>
      if Py.truthy h then
        let scheme := if str_truthy scheme then default EmptyString scheme else "http" in
        let port :=
          if port_truthy port then port
          else Some (default 80 (port_by_scheme (Py.lower scheme))) in
        let scheme := Py.lower scheme in
        if bool_decide (scheme ∈ ["http"; "https"]) then
          inr {| cp_scheme := scheme; cp_host := normalize_host h (Some scheme);
                 cp_port := port |}
        else inl (url_scheme_unknown scheme)
      else inl (location_value_error "No host specified.")
  | None => inl (location_value_error "No host specified.")
  end.

(** [HTTPHeaderDict._prepare_for_method_change]: the headers dropped when a
    303 turns the request into a GET *)
Definition content_specific_headers : list string :=
  ["Content-Encoding"; "Content-Language"; "Content-Location"; "Content-Type";
   "Content-Length"; "Digest"; "Last-Modified"].

Definition content_specific (name : string) : bool :=
  existsb (Headers.name_eqb name) content_specific_headers.

Definition prepare_for_method_change (h : Headers.store) : Headers.store :=
  List.filter (fun kv => negb (content_specific kv.1)) h.

End U3.

(** The pool manager consults [parse_url] for every URL it is given. *)
Section Redirects.

(** [urllib3.util.url.parse_url]; [inl] is the exception it raises *)
Variable parse_url : string -> raw_exc + U3Url.Url.

(** [ProxyManager(proxy_url=...)]: the exception its constructor raises, if
    any.  The proxy must parse, with the scheme http or https. *)
Definition ProxyManager_init (proxy_url : string) : option raw_exc :=
  match parse_url proxy_url with
  | inl e => Some e
  | inr proxy =>
      if bool_decide (U3Url.scheme proxy ∈ [Some "http"; Some "https"]) then None
      else Some (U3.proxy_scheme_unknown (U3Url.scheme proxy))
  end.

(** [get_host(url)] *)
Definition get_host (url : string) : raw_exc + (string * option string * option Z) :=
  match parse_url url with
  | inl e => inl e
  | inr p =>
      inr (if str_truthy (U3Url.scheme p) then default EmptyString (U3Url.scheme p)
           else "http",
           U3Url.host p, U3Url.port p)
  end.

(** [pool.is_same_host(url)]: scheme, host and port of the URL against those
    of the pool, a missing port standing for the port of the scheme *)
Definition is_same_host (pool : U3.conn_pool) (url : string) : raw_exc + bool :=
  if Py.startswith "/" url then inr true
  else
    match get_host url with
    | inl e => inl e
    | inr (scheme, host, port) =>
        let host := (fun h => U3.normalize_host h (Some scheme)) <$> host in
        let port :=
          if port_truthy (U3.cp_port pool) && negb (port_truthy port)
          then U3.port_by_scheme scheme
          else if negb (port_truthy (U3.cp_port pool))
                  && bool_decide (port = U3.port_by_scheme scheme)
          then None
          else port in
        inr (bool_decide ((scheme, host, port)
                          = (U3.cp_scheme pool, Some (U3.cp_host pool), U3.cp_port pool)))
    end.

(** The pool that serves a request for [url]: [connection_from_host] with the
    pieces of the parsed URL.  A [ProxyManager] sends an http URL to the pool
    of its proxy and tunnels an https URL, which gets a pool of its own. *)
Definition hop_pool (manager : pm_kind) (url : string) : raw_exc + U3.conn_pool :=
  match parse_url url with
  | inl e => inl e
  | inr u =>
      match manager with
      | ProxyManager proxy_url =>
          if bool_decide (U3Url.scheme u = Some "https") then
            U3.connection_from_host (U3Url.host u) (U3Url.port u) (U3Url.scheme u)
          else
            match parse_url proxy_url with
            | inl e => inl e
            | inr proxy =>
                let port :=
                  if port_truthy (U3Url.port proxy) then U3Url.port proxy
                  else Some (default 80
                               (U3.port_by_scheme (default EmptyString (U3Url.scheme proxy)))) in
                U3.connection_from_host (U3Url.host proxy) port (U3Url.scheme proxy)
            end
      | PoolManager | SocksProxyManager _ =>
          U3.connection_from_host (U3Url.host u) (U3Url.port u) (U3Url.scheme u)
      end
  end.

(** [PoolManager.urlopen] on a redirect: the headers of the request it sends
    next.  [url] is the URL that was just requested, [status] the status of
    its response and [location] the redirect location, already joined with
    [url].  A 303 drops the content headers.  [Retry] keeps the names it was
    given lower-cased, and every header that has such a name is dropped when
    the pool of [url] does not serve [location]. *)
Definition redirect_headers (manager : pm_kind) (retries : Retry) (url : string)
    (status : Z) (location : string) (h : Headers.store) : raw_exc + Headers.store :=
  match hop_pool manager url with
  | inl e => inl e
  | inr conn =>
      let h := if status =? 303 then U3.prepare_for_method_change h else h in
      let remove := List.map Py.lower (remove_headers_on_redirect retries) in
      match remove with
      | [] => inr h
      | _ =>
          match is_same_host conn location with
          | inl e => inl e
          | inr true => inr h
          | inr false =>
              inr (List.filter (fun kv => negb (bool_decide (Py.lower kv.1 ∈ remove))) h)
          end
      end
  end.

End Redirects.

(** ** [Urllib3RH] *)

Section Backend.

(** the shared cookie store and its policy (http.cookiejar, [..cookies]) *)
Context {Jar : Type}.
(** the [Cookie] value for a request, if any cookie applies *)
Variable cookie_attr : Jar -> Request -> option string.
(** [jar.extract_cookies(response, request)], as the updated store *)
Variable extract_cookies : Jar -> Response -> Request -> Jar.
(** the truth value Python gives the store object *)
Variable jar_truthy : Jar -> bool.

(** [urllib3.util.url.parse_url]; [inl] is the exception it raises *)
Variable parse_url : string -> raw_exc + U3Url.Url.
(** [socks_create_proxy_args(socks_proxy)] of [..utils]: the exception it
    raises, if any; the arguments it returns only reach the SOCKS socket *)
Variable socks_create_proxy_args : string -> option raw_exc.
(** [make_std_headers()] *)
Variable std_headers : Headers.store.
(** whether the guard at import time appended ['br'] *)
Variable brotli : bool.
(** the outcome of [pool.urlopen(...)] *)
Variable urlopen : pool_manager -> urlopen_args -> raw_exc + u3_response.

Definition SUPPORTED_ENCODINGS : list string :=
  ["gzip"; "deflate"] ++ (if brotli then ["br"] else []).

(** the handler object *)
Record Urllib3RH : Type := {
  pools : gmap string pool_manager;
  next_id : nat;
  cookiejar : option Jar;
  params : ydl_params;
}.

(** [_initialize] *)
Definition _initialize (jar : option Jar) (p : ydl_params) : Urllib3RH :=
  {| pools := ∅; next_id := 0; cookiejar := jar; params := p |}.

(** [_is_force_disabled] *)
Definition _is_force_disabled (self : Urllib3RH) : bool :=
  bool_decide ("no-urllib3" ∈ compat_opts (params self)).

(** [can_handle(self, request)], given the answer of [super().can_handle] *)
Definition can_handle (self : Urllib3RH) (super_can_handle : bool) : bool :=
  if _is_force_disabled self then false else super_can_handle.

(** [SocksProxyManager(socks_proxy, ...)]: the exception the constructor
    raises, if any *)
Definition SocksProxyManager_init (socks_proxy : string) : option raw_exc :=
  socks_create_proxy_args socks_proxy.

(** a new object of the given class: its identity is one no object has yet *)
Definition new_manager (self : Urllib3RH) (kind : pm_kind) (args : pm_args)
  : pool_manager * Urllib3RH :=
  ({| pm_id := next_id self; pm_kind_of := kind; pm_args_of := args |},
   {| pools := pools self; next_id := S (next_id self);
      cookiejar := cookiejar self; params := params self |}).

(** [_create_pm(self, proxy)]: every call that returns has built a new
    manager; [inl] is the exception a constructor raised *)
Definition _create_pm (self : Urllib3RH) (proxy : option string)
  : (raw_exc + pool_manager) * Urllib3RH :=
  let args :=
    {| ssl_context := params self;
       pm_source_address :=
         match source_address (params self) with
         | Some a => if Py.truthy a then Some (a, 0) else None
         | None => None
         end |} in
  let build kind := let '(pm, self) := new_manager self kind args in (inr pm, self) in
  if str_truthy proxy then
    let p := default EmptyString proxy in
    if Py.startswith "socks" p then
      match SocksProxyManager_init p with
      | Some e => (inl e, self)
      | None => build (SocksProxyManager p)
      end
    else
      match ProxyManager_init parse_url p with
      | Some e => (inl e, self)
      | None => build (ProxyManager p)
      end
  else build PoolManager.

(** [proxy or '__noproxy__'] *)
Definition pool_key (proxy : option string) : string :=
  match proxy with
  | Some p => if Py.truthy p then p else "__noproxy__"
  | None => "__noproxy__"
  end.

(** [get_pool(self, proxy)]: [dict.setdefault] with an eagerly built
    default, so an exception of [_create_pm] leaves before the registry is
    looked at *)
Definition get_pool (self : Urllib3RH) (proxy : option string)
  : (raw_exc + pool_manager) * Urllib3RH :=
  match _create_pm self proxy with
  | (inl e, self) => (inl e, self)
  | (inr pm, self) =>
      match pools self !! pool_key proxy with
      | Some p => (inr p, self)
      | None =>
          (inr pm, {| pools := <[pool_key proxy := pm]> (pools self);
                      next_id := next_id self; cookiejar := cookiejar self;
                      params := params self |})
      end
  end.

(** [request.has_header('Cookie')] *)
Definition has_cookie_header (request : Request) : bool :=
  Headers.contains "Cookie" (req_headers request) ||
  Headers.contains "Cookie" (req_unredirected_headers request).

(** Modelled from the spec: [cookiejar.add_cookie_header(request)], whose
    class is not among the sources.  The cookies that apply to the request
    become a [Cookie] header that is not forwarded on redirect, unless the
    caller set a [Cookie] header already. *)
Definition add_cookie_header (jar : Jar) (request : Request) : Request :=
  match cookie_attr jar request with
  | Some v =>
      if has_cookie_header request then request
      else {| req_method := req_method request; req_url := req_url request;
              req_headers := req_headers request;
              req_unredirected_headers :=
                Headers.set "Cookie" v (req_unredirected_headers request);
              req_data := req_data request; req_proxy := req_proxy request;
              req_timeout := req_timeout request;
              req_compression := req_compression request |}
  | None => request
  end.

(** the header set handed to [urlopen] (lines 178-185) *)
Definition dispatch_headers (self : Urllib3RH) (request : Request) : Headers.store :=
  let headers :=
    Headers.make [Some std_headers; http_headers (params self);
                  Some (req_headers request);
                  Some (req_unredirected_headers request)] in
  let headers :=
    if negb (Headers.contains "Accept-Encoding" headers)
    then Headers.set "Accept-Encoding" (Py.join ", " SUPPORTED_ENCODINGS) headers
    else headers in
  if negb (req_compression request) then Headers.del "accept-encoding" headers
  else headers.

(** the proxy handed to [get_pool] (lines 187-192) *)
Definition resolve_proxy (request : Request) : raw_exc + option string :=
  let proxy := req_proxy request in
  if str_truthy proxy then
    match proxy with
    | Some p =>
        match parse_url p with
        | inl e => inl e
        | inr proxy_parsed =>
            match U3Url.scheme proxy_parsed with
            | None =>
                match parse_url (req_url request) with
                | inl e => inl e
                | inr target =>
                    inr (Some (U3Url.url
                           (U3Url.replace_scheme proxy_parsed (U3Url.scheme target))))
                end
            | Some _ => inr proxy
            end
        end
    | None => inr proxy
    end
  else inr proxy.

Definition make_retries (request : Request) : Retry :=
  {| remove_headers_on_redirect := Headers.keys (req_unredirected_headers request);
     raise_on_redirect := false; other := 0; retry_read := 0; retry_connect := 0 |}.

Definition make_urlopen_args (request : Request) (retries : Retry)
    (h : Headers.store) : urlopen_args :=
  {| arg_method := req_method request; arg_url := req_url request;
     arg_request_url := req_url request; arg_headers := h;
     arg_body := req_data request; arg_preload_content := false;
     arg_timeout := req_timeout request; arg_retries := retries;
     arg_redirect := true |}.

(** the inner [try]: a [MaxRetryError] with a reason raises the reason *)
Definition unwrap_max_retry (r : raw_exc) : raw_exc :=
  if isinstance r U3_MaxRetryError then
    match reason r with
    | Some x => x
    | None => r
    end
  else r.

(** the [except] clauses of the outer [try], in order; [None] when a
    handler returns instead of raising *)
Definition dispatch_except (e : raw_exc) : option exc :=
  if isinstance e U3_ConnectTimeoutError then Some (Typed (ConnectTimeoutError e))
  else if isinstance e U3_ProxyError then Some (Typed (ProxyError (str_ e) e))
  else if isinstance_any e READ_ERRORS then Some (handle_read_errors e)
  else if isinstance e U3_ProtocolError then handle_protocol_error e
  else if isinstance e U3_HTTPError then Some (Typed (TransportError (str_ e) e))
  else Some (Raw e).

Definition set_cookiejar (self : Urllib3RH) (jar : Jar) : Urllib3RH :=
  {| pools := pools self; next_id := next_id self; cookiejar := Some jar;
     params := params self |}.

(** Everything [_real_handle] has fixed when it calls [urlopen]: the
    request after cookie injection, the store, the pool that receives the
    call, the keyword arguments, and the handler after [get_pool]. *)
Record dispatch : Type := {
  d_request : Request;
  d_jar : Jar;
  d_pool : pool_manager;
  d_args : urlopen_args;
  d_self : Urllib3RH;
}.

(** what the [try] statements make of an exception raised inside them *)
Definition translate (r : raw_exc) : exc :=
  match dispatch_except (unwrap_max_retry r) with
  | Some x => x
  | None => Raw (unbound_local_error "urllib3_res")
  end.

(** lines 171-192, and the receiver [self.get_pool(proxy)] of line 195;
    [inl] is an exception raised before the call is made.  The proxy is
    resolved before the [try]; [get_pool] is called inside it. *)
Definition prepare_dispatch (self : Urllib3RH) (request : Request)
  : exc * Urllib3RH + dispatch :=
  match cookiejar self with
  | None => inl (Raw (attribute_error "add_cookie_header"), self)
  | Some jar =>
      let request := add_cookie_header jar request in
      let retries := make_retries request in
      let headers := dispatch_headers self request in
      match resolve_proxy request with
      | inl e => inl (Raw e, self)
      | inr proxy =>
          match get_pool self proxy with
          | (inl e, self) => inl (translate e, self)
          | (inr pool, self) =>
              inr {| d_request := request; d_jar := jar; d_pool := pool;
                     d_args := make_urlopen_args request retries headers;
                     d_self := self |}
          end
      end
  end.

(** lines 207-234, given what [urlopen] did *)
Definition complete (d : dispatch) (result : raw_exc + u3_response)
  : outcome Response * Urllib3RH :=
  let self := d_self d in
  match result with
  | inl r =>
      match dispatch_except (unwrap_max_retry r) with
      | Some x => (Raise x, self)
      | None => (Raise (Raw (unbound_local_error "urllib3_res")), self)
      end
  | inr urllib3_res =>
      match Urllib3ResponseAdapter urllib3_res with
      | Raise x => (Raise x, self)
      | Ret res =>
          if negb ((200 <=? status res) && (status res <? 300)) then
            (Raise (Typed (Urllib3HTTPError res
                      (bool_decide (u3_retries_total urllib3_res = Some 0)))),
             self)
          else
            let self :=
              if jar_truthy (d_jar d)
              then set_cookiejar self (extract_cookies (d_jar d) res (d_request d))
              else self in
            (Ret res, self)
      end
  end.

(** [_real_handle(self, request)] *)
Definition _real_handle (self : Urllib3RH) (request : Request)
  : outcome Response * Urllib3RH :=
  match prepare_dispatch self request with
  | inl (x, self) => (Raise x, self)
  | inr d => complete d (urlopen (d_pool d) (d_args d))
  end.

(** a run of [get_pool] calls, results and exceptions dropped *)
Fixpoint get_pools (self : Urllib3RH) (proxies : list (option string)) : Urllib3RH :=
  match proxies with
  | [] => self
  | p :: t => get_pools (get_pool self p).2 t
  end.

End Backend.

(** ** A concrete environment *)

(** Stand-ins for the collaborators, used to run the handler on concrete
    requests: a cookie store that keeps one cookie per domain and name, the
    parser of urllib3 for URLs written in ASCII without percent escapes,
    IPv6 literals or dot segments (for them it does what urllib3 1.26.20
    does), and backend exceptions with the method resolution order urllib3
    1.26 gives them. *)
Module Scenario.

(** cookies: domain, name, value *)
Definition Jar : Type := list (string * string * string).

Definition host_of (url : string) : string :=
  match UrlParse.urlparse url with
  | Some p => default EmptyString (UrlParse.hostname p)
  | None => EmptyString
  end.

Definition cookie_attr (jar : Jar) (request : Request) : option string :=
  match List.filter (fun c => bool_decide (c.1.1 = host_of (req_url request))) jar with
  | [] => None
  | l => Some (Py.join "; " (List.map (fun c => c.1.2 +:+ "=" +:+ c.2) l))
  end.

(** name and value at the head of a [Set-Cookie] value *)
Definition parse_set_cookie (v : string) : string * string :=
  let '(head, _, _) := Py.partition ";"%char v in
  let '(name, _, value) := Py.partition "="%char head in
  (name, value).

(** a cookie takes the place of the stored cookie of its domain and name *)
Definition set_cookie (jar : Jar) (c : string * string * string) : Jar :=
  if existsb (fun o => bool_decide (o.1 = c.1)) jar
  then List.map (fun o => if bool_decide (o.1 = c.1) then c else o) jar
  else jar ++ [c].

Definition extract_cookies (jar : Jar) (res : Response) (_ : Request) : Jar :=
  fold_left set_cookie
    (List.map (fun kv => (host_of (default EmptyString (geturl res)),
                          (parse_set_cookie kv.2).1, (parse_set_cookie kv.2).2))
       (List.filter (fun kv => Headers.name_eqb "Set-Cookie" kv.1) (headers res)))
    jar.

(** [http.cookiejar.CookieJar] defines [__len__]: an empty jar is falsy *)
Definition jar_truthy (jar : Jar) : bool :=
  match jar with [] => false | _ => true end.

(** the longest run of characters that satisfy [p], and what follows it *)
Fixpoint span (p : ascii -> bool) (s : string) : string * string :=
  match s with
  | EmptyString => (EmptyString, EmptyString)
  | String c t =>
      if p c then let '(a, b) := span p t in (String c a, b)
      else (EmptyString, s)
  end.

Definition one_of (cs : string) (c : ascii) : bool := Py.has_char c cs.

(** a letter, then letters, digits, [+] and [-] (and [.] when [dot] is
    set), then a colon: the scheme and what follows the colon *)
Definition match_scheme (dot : bool) (s : string) : option (string * string) :=
  match s with
  | EmptyString => None
  | String c _ =>
      if Py.is_alpha c then
        match span (fun c => Py.is_alpha c || Py.is_digit c || one_of "+-" c
                             || (dot && one_of "." c)) s with
        | (a, String ":" rest) => Some (a, rest)
        | _ => None
        end
      else None
  end.

Fixpoint parse_dec (acc : Z) (s : string) : option Z :=
  match s with
  | EmptyString => Some acc
  | String c t =>
      if Py.is_digit c
      then parse_dec (10 * acc + Z.of_nat (nat_of_ascii c - 48)) t
      else None
  end.

Fixpoint strip_zeros (s : string) : string :=
  match s with
  | String "0" t => strip_zeros t
  | _ => s
  end.

(** [_HOST_PORT_RE]: a registered name or an IPv4 address, then optionally a
    colon and a port of at most five digits after its leading zeros *)
Definition host_port (s : string) : option (string * option Z) :=
  let '(h, found, p) := Py.partition ":"%char s in
  if negb (Py.all_chars (fun c => negb (one_of "[]%:/?#" c)) h) then None
  else if negb found then Some (h, None)
  else if negb (Py.truthy p) then Some (h, None)
  else if (String.length (strip_zeros p) <=? 5)%nat then
    match parse_dec 0 p with
    | Some n => Some (h, Some n)
    | None => None
    end
  else None.

Definition location_parse_error (url : string) : raw_exc :=
  {| mro := [OtherClass "urllib3.exceptions.LocationParseError";
             OtherClass "urllib3.exceptions.LocationValueError";
             Py_ValueError; U3_HTTPError];
     str_ := "Failed to parse: " +:+ url;
     args_str := "('Failed to parse: " +:+ url +:+ "',)"; cause := None;
     reason := None; partial := None; expected := None |}.

(** [parse_url(url)]: a URL without a scheme in front is read as a network
    location; the scheme is found by [SCHEME_RE], which knows no dot, so
    [localhost:8080] has the scheme [localhost] and [proxy.example:8080] has
    none *)
Definition parse_url (source_url : string) : raw_exc + U3Url.Url :=
  if negb (Py.truthy source_url) then
    inr {| U3Url.scheme := None; U3Url.auth := None; U3Url.host := None;
           U3Url.port := None; U3Url.path := None; U3Url.query := None;
           U3Url.fragment := None |}
  else
    let url :=
      if Py.startswith "/" source_url || bool_decide (is_Some (match_scheme false source_url))
      then source_url else "//" +:+ source_url in
    let '(scheme, rest) :=
      match match_scheme true url with
      | Some (a, r) => (Some (Py.lower a), r)
      | None => (None, url)
      end in
    let '(authority, rest) :=
      match rest with
      | String "/" (String "/" r) =>
          let '(a, r') := span (fun c => negb (one_of "\/?#" c)) r in (Some a, r')
      | _ => (None, rest)
      end in
    let '(path, rest) := span (fun c => negb (one_of "?#" c)) rest in
    let '(query, rest) :=
      match rest with
      | String "?" r => let '(q, r') := span (fun c => negb (one_of "#" c)) r in (Some q, r')
      | _ => (None, rest)
      end in
    let fragment := match rest with String "#" r => Some r | _ => None end in
    let parts :=
      if str_truthy authority then
        let '(auth, _, hp) := Py.rpartition "@"%char (default EmptyString authority) in
        match host_port hp with
        | Some (h, port) => Some (if Py.truthy auth then Some auth else None, Some h, port)
        | None => None
        end
      else Some (None, None, None) in
    match parts with
    | None => inl (location_parse_error source_url)
    | Some (auth, host, port) =>
        if negb (default 0 port <=? 65535)
        then inl (location_parse_error source_url)
        else
          let path :=
            if Py.truthy path then
              Some (if Py.startswith "/" path then path else "/" +:+ path)
            else if bool_decide (is_Some query) || bool_decide (is_Some fragment)
            then Some EmptyString
            else None in
          inr {| U3Url.scheme := scheme; U3Url.auth := auth;
                 U3Url.host := (fun h => U3.normalize_host h scheme) <$> host;
                 U3Url.port := port; U3Url.path := path; U3Url.query := query;
                 U3Url.fragment := fragment |}
    end.

(** a stand-in for [socks_create_proxy_args] that accepts every proxy *)
Definition socks_create_proxy_args (socks_proxy : string) : option raw_exc := None.

Definition std_headers : Headers.store :=
  [("User-Agent", "Mozilla/5.0"); ("Accept", "*/*")].

Definition ydl : ydl_params :=
  {| http_headers := None; source_address := None; compat_opts := [] |}.

Definition u3_exc (classes : list exc_class) (msg : string)
    (c : option raw_exc) : raw_exc :=
  {| mro := classes; str_ := msg; args_str := "('" +:+ msg +:+ "',)"; cause := c;
     reason := None; partial := None; expected := None |}.


Definition read_timeout : raw_exc :=
  u3_exc [U3_ReadTimeoutError; OtherClass "urllib3.exceptions.TimeoutError";
          OtherClass "urllib3.exceptions.RequestError";
          OtherClass "urllib3.exceptions.PoolError"; U3_HTTPError]
         "Read timed out." None.

Definition max_retry (r : raw_exc) : raw_exc :=
  {| mro := [U3_MaxRetryError; OtherClass "urllib3.exceptions.RequestError";
             OtherClass "urllib3.exceptions.PoolError"; U3_HTTPError];
     str_ := "Max retries exceeded"; args_str := "('Max retries exceeded',)";
     cause := None; reason := Some r; partial := None; expected := None |}.

(** a socket-level error, as the SOCKS socket raises it *)
Definition connection_refused : raw_exc :=
  u3_exc [OtherClass "ConnectionRefusedError"; OtherClass "ConnectionError"; Py_OSError]
         "[Errno 111] Connection refused" None.

(** what [urlopen] makes of a reset connection: a [ProtocolError] that holds
    the socket error as an argument *)
Definition connection_aborted : raw_exc :=
  u3_exc [U3_ProtocolError; U3_HTTPError]
         "('Connection aborted.', ConnectionResetError(104, 'Connection reset by peer'))"
         None.

(** what [urlopen] makes of a proxy that cannot be reached *)
Definition proxy_error : raw_exc :=
  u3_exc [U3_ProxyError; U3_HTTPError]
         "('Cannot connect to proxy.', ConnectionRefusedError(111, 'Connection refused'))"
         None.


(** urllib3's [IncompleteRead(partial, expected)] *)
Definition u3_incomplete_read (p x : Z) : raw_exc :=
  {| mro := [U3_IncompleteRead; U3_HTTPError; HC_IncompleteRead;
             OtherClass "http.client.HTTPException"];
     str_ := "IncompleteRead(" +:+ pretty p +:+ " bytes read, " +:+ pretty x +:+ " more expected)";
     args_str := "(" +:+ pretty p +:+ ", " +:+ pretty x +:+ ")"; cause := None;
     reason := None; partial := Some (Py.PyInt p); expected := Some (Py.PyInt x) |}.

(** a [ProtocolError] that reports the truncation in its message only *)
Definition protocol_error_message_only : raw_exc :=
  u3_exc [U3_ProtocolError; U3_HTTPError]
         "Connection broken: Incomplete read, 5 of 10 bytes" None.

(** a [ProtocolError] chained from urllib3's incomplete read *)
Definition protocol_error_incomplete (p x : Z) : raw_exc :=
  u3_exc [U3_ProtocolError; U3_HTTPError] "Connection broken"
         (Some (u3_incomplete_read p x)).

Definition conn1 : connection :=
  {| conn_id := 1; conn_host := "93.184.216.34"; conn_port := 443 |}.

Definition response (url : string) (st : Z) (h : Headers.store) : u3_response :=
  {| u3_geturl := Some url; u3_connection := Some conn1; u3_headers := h;
     u3_status := st; u3_version := 11; u3_retries_total := Some 10;
     u3_release_conn_overridden := false |}.

Definition request (url : string) (proxy : option string) (compression : bool) : Request :=
  {| req_method := "GET"; req_url := url;
     req_headers := [("Accept-Encoding", "identity"); ("X-Test", "1")];
     req_unredirected_headers := [("Authorization", "Bearer t")];
     req_data := None; req_proxy := proxy; req_timeout := 20;
     req_compression := compression |}.



Definition stored : Jar := [("other.example", "a", "b"); ("example.com", "sid", "0")].

Definition handler : @Urllib3RH Jar := _initialize (Some stored) ydl.

Definition urlopen_returns (r : u3_response)
  : pool_manager -> urlopen_args -> raw_exc + u3_response := fun _ _ => inr r.

Definition urlopen_raises (e : raw_exc)
  : pool_manager -> urlopen_args -> raw_exc + u3_response := fun _ _ => inl e.

(** the handler run in this environment *)
Definition handle (urlopen : pool_manager -> urlopen_args -> raw_exc + u3_response)
    (self : @Urllib3RH Jar) (req : Request) : outcome Response * @Urllib3RH Jar :=
  _real_handle cookie_attr extract_cookies jar_truthy parse_url
               socks_create_proxy_args std_headers true urlopen self req.

End Scenario.

(** ** The import-time guard and other readings of the module *)

(** Python's [<] on [str]: lexicographic on code points, a proper prefix
    being smaller *)
Fixpoint str_lt (a b : string) : bool :=
  match a, b with
  | _, EmptyString => false
  | EmptyString, String _ _ => true
  | String x a', String y b' =>
      if (nat_of_ascii x <? nat_of_ascii y)%nat then true
      else if (nat_of_ascii y <? nat_of_ascii x)%nat then false
      else str_lt a' b'
  end.

(** The guard of lines 43-46, which decides at import time whether ['br'] is
    appended to [SUPPORTED_ENCODINGS]: [compat_brotli] is [None] or a module,
    given by its [__name__]; [urllib3_version] is [urllib3.__version__]. *)
Definition brotli_supported (compat_brotli : option string) (urllib3_version : string) : bool :=
  match compat_brotli with
  | None => false
  | Some name =>
      negb (bool_decide (name = "brotlicffi") && str_lt urllib3_version "1.26.9")
  end.

(** the [cause] keyword that every typed error of the translators is built
    with; [HTTPError] takes a response instead *)
Definition error_cause (e : Error) : option raw_exc :=
  match e with
  | TransportError _ c | ConnectTimeoutError c | ReadTimeoutError c
  | IncompleteRead _ _ c | SSLError _ c | ProxyError _ c => Some c
  | HTTPError _ _ => None
  end.

(** the manager [_create_pm] builds for a proxy that is not empty *)
Definition proxy_manager_kind (proxy : string) : pm_kind :=
  if Py.startswith "socks" proxy then SocksProxyManager proxy else ProxyManager proxy.

(** What holds of a handler's registry: a pool stored under a key was built
    for that key, pool objects were allocated before [next_id], and no pool
    object is stored under two keys. *)
Definition pool_fits_key (k : string) (pm : pool_manager) : Prop :=
  (k = "__noproxy__" /\ pm_kind_of pm = PoolManager)
  \/ (Py.truthy k = true /\ pm_kind_of pm = proxy_manager_kind k).

Definition registry_ok {Jar : Type} (self : @Urllib3RH Jar) : Prop :=
  (forall k pm, pools self !! k = Some pm ->
                pool_fits_key k pm /\ (pm_id pm < next_id self)%nat)
  /\ (forall k1 k2 pm1 pm2,
        pools self !! k1 = Some pm1 -> pools self !! k2 = Some pm2 ->
        pm_id pm1 = pm_id pm2 -> k1 = k2).

(** more inputs for runs: two answers of the backend, a run of proxy
    identities, and a handler that the compatibility option switches off *)
Definition bad_gateway : u3_response :=
  Scenario.response "https://example.com/watch" 502 [("Set-Cookie", "sid=1")].

Definition ok_response : u3_response :=
  Scenario.response "https://example.com/watch" 200 [("Set-Cookie", "sid=1")].

Definition three_identities : list (option string) :=
  [None; Some "socks5://127.0.0.1:9050"; Some "http://10.0.0.1:3128"; Some EmptyString].

Definition disabled_handler : @Urllib3RH Scenario.Jar :=
  _initialize (Some Scenario.stored)
    {| http_headers := None; source_address := None; compat_opts := ["no-urllib3"] |}.

(** ** Where a timeout can strike *)






(** * Properties *)

(** ** The pool registry *)

Section PoolRegistry.

Context {Jar : Type}.
Variable parse_url : string -> raw_exc + U3Url.Url.
Variable socks_create_proxy_args : string -> option raw_exc.

Local Abbreviation create_pm := (@_create_pm Jar parse_url socks_create_proxy_args).
Local Abbreviation pool_of := (@get_pool Jar parse_url socks_create_proxy_args).
Local Abbreviation pools_after := (@get_pools Jar parse_url socks_create_proxy_args).

Implicit Types (self : @Urllib3RH Jar) (p : option string).

(** [_create_pm] either raises and leaves the handler alone, or returns an
    object with an identity of its own, of the class that fits the proxy *)
Lemma create_pm_cases self p :
  (exists e, create_pm self p = (inl e, self))
  \/ (exists pm,
        create_pm self p
        = (inr pm, {| pools := pools self; next_id := S (next_id self);
                      cookiejar := cookiejar self; params := params self |})
        /\ pm_id pm = next_id self
        /\ pool_fits_key (pool_key p) pm).
Proof.
  unfold _create_pm, new_manager, SocksProxyManager_init, pool_fits_key, pool_key,
    proxy_manager_kind, str_truthy.
  destruct p as [s|]; [|right; eexists; split; [reflexivity|]; split; [reflexivity|now left]].
  destruct (Py.truthy s) eqn:Et;
    [|right; eexists; split; [reflexivity|]; split; [reflexivity|now left]].
  change (default EmptyString (Some s)) with s.
  destruct (Py.startswith "socks" s) eqn:Es.
  - destruct (socks_create_proxy_args s) as [e|]; [left; eauto|].
    right. eexists. split; [reflexivity|]. split; [reflexivity|]. right.
    cbv iota. split; [exact Et|]. reflexivity.
  - destruct (ProxyManager_init parse_url s) as [e|]; [left; eauto|].
    right. eexists. split; [reflexivity|]. split; [reflexivity|]. right.
    cbv iota. split; [exact Et|]. reflexivity.
Qed.

(** whether a manager can be built depends on the proxy alone *)
Lemma create_pm_fails_alike self self' p e :
  (create_pm self p).1 = inl e -> (create_pm self' p).1 = inl e.
Proof.
  unfold _create_pm, new_manager, SocksProxyManager_init.
  destruct (str_truthy p); [|discriminate].
  destruct (Py.startswith "socks" _).
  - destruct (socks_create_proxy_args _); [now intros [= <-]|discriminate].
  - destruct (ProxyManager_init parse_url _); [now intros [= <-]|discriminate].
Qed.

Lemma create_pm_builds_alike self self' p pm :
  (create_pm self p).1 = inr pm -> exists pm', (create_pm self' p).1 = inr pm'.
Proof.
  intros H. destruct (create_pm self' p).1 as [e|pm'] eqn:E; [|eauto].
  rewrite (create_pm_fails_alike self' self p e E) in H. discriminate.
Qed.

Lemma create_pm_falsy self p :
  str_truthy p = false ->
  exists pm, (create_pm self p).1 = inr pm
             /\ pm_kind_of pm = PoolManager /\ pm_id pm = next_id self.
Proof.
  intros H. unfold _create_pm, new_manager. rewrite H. eexists.
  split; [reflexivity|]. split; reflexivity.
Qed.


Lemma get_pool_inl self p e s' :
  pool_of self p = (inl e, s') -> (create_pm self p).1 = inl e /\ s' = self.
Proof.
  unfold get_pool.
  destruct (create_pm_cases self p) as [(e' & E)|(pm & E & _)]; rewrite E.
  - now intros [= <- <-].
  - cbn [pools]. destruct (pools self !! pool_key p); discriminate.
Qed.

(** the pool that [get_pool] returns is the stored one, or the one just
    built when none was stored *)
Lemma get_pool_returned self p pm s' :
  pool_of self p = (inr pm, s') ->
  pools s' !! pool_key p = Some pm
  /\ next_id s' = S (next_id self)
  /\ (pools self !! pool_key p = Some pm /\ pools s' = pools self
      \/ pools self !! pool_key p = None /\ (create_pm self p).1 = inr pm
         /\ pools s' = <[pool_key p := pm]> (pools self)).
Proof.
  unfold get_pool.
  destruct (create_pm_cases self p) as [(e' & E)|(new & E & _)]; rewrite E;
    [discriminate|].
  cbn [pools fst]. destruct (pools self !! pool_key p) as [o|] eqn:El.
  - intros [= <- <-]. cbn [pools next_id]. split; [exact El|]. split; [reflexivity|].
    now left.
  - intros [= <- <-]. cbn [pools next_id]. split; [apply lookup_insert_eq|].
    split; [reflexivity|]. right. now repeat split.
Qed.

Lemma get_pool_hit self p o :
  pools self !! pool_key p = Some o ->
  (exists pm, (create_pm self p).1 = inr pm) ->
  exists s', pool_of self p = (inr o, s').
Proof.
  intros El [pm H]. unfold get_pool.
  destruct (create_pm_cases self p) as [(e' & E)|(new & E & _)]; rewrite E in *;
    [discriminate|].
  cbn [pools]. rewrite El. eauto.
Qed.

Lemma get_pool_miss self p pm :
  pools self !! pool_key p = None -> (create_pm self p).1 = inr pm ->
  exists s', pool_of self p = (inr pm, s').
Proof.
  intros El H. unfold get_pool.
  destruct (create_pm_cases self p) as [(e' & E)|(new & E & _)]; rewrite E in *;
    [discriminate|].
  cbn [pools fst] in *. rewrite El. injection H as ->. eauto.
Qed.

(** the fields [get_pool] leaves alone *)
Lemma get_pool_params self p :
  params (pool_of self p).2 = params self
  /\ cookiejar (pool_of self p).2 = cookiejar self.
Proof.
  destruct (pool_of self p) as [[e|pm] s'] eqn:E; cbn [snd].
  - apply get_pool_inl in E as [_ ->]. now split.
  - revert E. unfold get_pool.
    destruct (create_pm_cases self p) as [(e' & E)|(new & E & _)]; rewrite E;
      [discriminate|].
    cbn [pools]. destruct (pools self !! pool_key p); intros [= _ <-]; now split.
Qed.

(** what a lookup finds after [get_pool] *)
Lemma get_pool_lookup self p k pm :
  pools (pool_of self p).2 !! k = Some pm ->
  pools self !! k = Some pm
  \/ (k = pool_key p /\ pools self !! k = None
      /\ pool_of self p = (inr pm, (pool_of self p).2)
      /\ (create_pm self p).1 = inr pm).
Proof.
  destruct (pool_of self p) as [[e|o] s'] eqn:E; cbn [snd].
  - apply get_pool_inl in E as [_ ->]. now left.
  - destruct (get_pool_returned _ _ _ _ E) as (Hst & _ & [[Hl Hp]|(Hl & Hc & Hp)]);
      rewrite Hp.
    + now left.
    + destruct (decide (k = pool_key p)) as [->|Hne].
      * rewrite lookup_insert_eq. intros [= <-]. right. now repeat split.
      * rewrite lookup_insert_ne by congruence. now left.
Qed.

(** an entry, once stored, is never replaced *)
Lemma get_pool_keeps self p k o :
  pools self !! k = Some o -> pools (pool_of self p).2 !! k = Some o.
Proof.
  intros El. destruct (pool_of self p) as [[e|pm] s'] eqn:E; cbn [snd].
  - apply get_pool_inl in E as [_ ->]. exact El.
  - destruct (get_pool_returned _ _ _ _ E) as (_ & _ & [[_ Hp]|(Hl & _ & Hp)]);
      rewrite Hp; [exact El|].
    rewrite lookup_insert_ne; [exact El|]. intros Heq. rewrite Heq in Hl. congruence.
Qed.

Lemma get_pools_keeps ps : forall self k o,
  pools self !! k = Some o -> pools (pools_after self ps) !! k = Some o.
Proof.
  induction ps as [|p ps IH]; intros self k o E; simpl; [exact E|].
  apply IH. now apply get_pool_keeps.
Qed.

Lemma get_pool_dom self p :
  dom (pools (pool_of self p).2) ⊆ dom (pools self) ∪ {[pool_key p]}.
Proof.
  intros k Hk. apply elem_of_dom in Hk as [pm Hk].
  apply get_pool_lookup in Hk as [Hk|(-> & _)]; [|set_solver].
  apply elem_of_union_l, elem_of_dom. eauto.
Qed.

Lemma get_pools_dom ps : forall self,
  dom (pools (pools_after self ps)) ⊆ dom (pools self) ∪ list_to_set (pool_key <$> ps).
Proof.
  induction ps as [|p ps IH]; intros self; simpl.
  - set_solver.
  - specialize (IH (pool_of self p).2). pose proof (get_pool_dom self p). set_solver.
Qed.

Lemma get_pools_params ps : forall self, params (pools_after self ps) = params self.
Proof.
  induction ps as [|p ps IH]; intros self; simpl; [reflexivity|].
  rewrite IH. apply get_pool_params.
Qed.

(** C3, as the code has it: once [get_pool] has returned a pool for a proxy
    identity, that pool stays registered under the identity whatever calls
    follow, and a later
    call for the identity never returns another object: it returns that pool,
    and it does so whenever the manager it builds first (and then drops) can
    be built, as for the same proxy again and for a request without a proxy;
    otherwise it raises what the constructor raised.  The pool is the entry
    the registry had for the identity or, when it had none, an object built
    in the first call: its identity is new, it differs from every pool the
    registry held, and its class fits the proxy.  The registry gains no
    entries but those of the identities asked for. *)
Theorem get_pool_same_identity self p1 p2 (between : list (option string))
    (first : pool_manager) (s1 : @Urllib3RH Jar) :
  pool_key p1 = pool_key p2 ->
  pool_of self p1 = (inr first, s1) ->
  let s2 := pools_after s1 between in
  pools s2 !! pool_key p2 = Some first
  /\ (forall out s3, pool_of s2 p2 = (out, s3) ->
        pools s3 !! pool_key p2 = Some first
        /\ (out = inr first \/ exists e, out = inl e /\ (create_pm s2 p2).1 = inl e))
  /\ ((exists pm, (create_pm s2 p2).1 = inr pm) ->
      exists s3, pool_of s2 p2 = (inr first, s3))
  /\ (exists s3, pool_of s2 p1 = (inr first, s3))
  /\ (str_truthy p2 = false -> exists s3, pool_of s2 p2 = (inr first, s3))
  /\ match pools self !! pool_key p1 with
     | Some stored => first = stored
     | None =>
         pm_id first = next_id self
         /\ pool_fits_key (pool_key p1) first
         /\ (registry_ok self -> forall k pm, pools self !! k = Some pm -> pm <> first)
     end
  /\ dom (pools s2)
     ⊆ dom (pools self) ∪ {[pool_key p1]} ∪ list_to_set (pool_key <$> between).
Proof.
  intros Hk Hfirst s2.
  destruct (get_pool_returned _ _ _ _ Hfirst) as (Hst1 & _ & Hcase).
  assert (Hstored : pools s2 !! pool_key p2 = Some first).
  { apply get_pools_keeps. now rewrite <- Hk. }
  assert (Hlater : (exists pm, (create_pm s2 p2).1 = inr pm) ->
                   exists s3, pool_of s2 p2 = (inr first, s3))
    by (now apply get_pool_hit).
  split; [exact Hstored|]. split; [|split; [exact Hlater|split; [|split; [|split]]]].
  - intros out s3 E. destruct out as [e|later].
    + apply get_pool_inl in E as [Hc ->]. split; [exact Hstored|]. right. eauto.
    + destruct (get_pool_returned _ _ _ _ E) as (Hst & _ & [[Hl _]|(Hl & _)]);
        [|congruence].
      assert (later = first) as -> by congruence. split; [exact Hst|now left].
  - apply get_pool_hit; [now rewrite Hk|].
    destruct Hcase as [[Hl _]|(_ & Hc & _)].
    + destruct (pool_of self p1) as [[e|o] s'] eqn:E; [discriminate|].
      revert E. unfold get_pool.
      destruct (create_pm_cases self p1) as [(e' & E)|(new & E & _)]; rewrite E;
        [discriminate|].
      intros _. apply (create_pm_builds_alike self s2 p1 new). now rewrite E.
    + now apply (create_pm_builds_alike self s2 p1 first).
  - intros Hf. apply Hlater. destruct (create_pm_falsy s2 p2 Hf) as (pm & H & _). eauto.
  - destruct Hcase as [[Hl _]|(Hl & Hc & _)]; rewrite Hl; [reflexivity|].
    destruct (create_pm_cases self p1) as [(e' & E)|(new & E & Hid & Hfit)];
      rewrite E in Hc; [discriminate|].
    cbn [fst] in Hc. injection Hc as ->. split; [exact Hid|]. split; [exact Hfit|].
    intros [Hok _] k pm Hl' ->. destruct (Hok k first Hl') as [_ Hlt]. lia.
  - subst s2. pose proof (get_pools_dom between s1) as H1.
    pose proof (get_pool_dom self p1) as H2. rewrite Hfirst in H2. cbn [snd] in H2.
    set_solver.
Qed.

End PoolRegistry.

(** the no-proxy identity: [None] and the empty string share one pool, also
    after a call for a proxy that no manager takes *)
Lemma get_pool_same_identity_witness :
  let self := @_initialize Scenario.Jar None Scenario.ydl in
  let pool_of := get_pool Scenario.parse_url Scenario.socks_create_proxy_args in
  let first := {| pm_id := 0; pm_kind_of := PoolManager;
                  pm_args_of := {| ssl_context := Scenario.ydl;
                                   pm_source_address := None |} |} in
  pool_key None = pool_key (Some EmptyString)
  /\ exists s1 s3,
       pool_of self None = (inr first, s1)
       /\ pool_of (get_pools Scenario.parse_url Scenario.socks_create_proxy_args s1
                     [Some "socks5://127.0.0.1:9050"; Some "localhost:8080"])
            (Some EmptyString)
          = (inr first, s3).
Proof.
  intros self pool_of first. split; [reflexivity|].
  destruct (pool_of self None) as [out s1] eqn:E1.
  assert (Ho : out = inr first) by (vm_compute in E1; now injection E1 as <- _).
  subst out. exists s1.
  destruct (get_pool_same_identity Scenario.parse_url Scenario.socks_create_proxy_args
              self None (Some EmptyString)
              [Some "socks5://127.0.0.1:9050"; Some "localhost:8080"] first s1
              eq_refl E1) as (_ & _ & _ & _ & H & _).
  destruct (H eq_refl) as [s3 H3]. exists s3. split; [reflexivity|exact H3].
Defined.

(** ** Error translation *)

Section ErrorTranslation.

Ltac kind_done :=
  eexists; split; [reflexivity | unfold translated_kinds; cbn [kind_of]; set_solver].

Lemma has_counts_inv e :
  has_counts e = true -> exists p x, partial e = Some p /\ expected e = Some x.
Proof.
  unfold has_counts. destruct (partial e) as [p|], (expected e) as [x|]; try discriminate.
  eauto.
Qed.

Lemma handle_read_errors_typed e :
  urllib3_fault e = true -> isinstance_any e READ_ERRORS = true ->
  exists err, handle_read_errors e = Typed err /\ kind_of err ∈ translated_kinds.
Proof.
  unfold urllib3_fault, isinstance_any, READ_ERRORS, handle_read_errors.
  cbn [existsb]. intros Hf Hr.
  destruct (isinstance e U3_ReadTimeoutError) eqn:E1; [kind_done|].
  destruct (isinstance e U3_IncompleteRead) eqn:E2.
  - destruct (isinstance e U3_HTTPError); [|discriminate]. cbn [andb] in Hf.
    apply andb_prop in Hf as [Hc _]. apply has_counts_inv in Hc as (p & x & -> & ->).
    kind_done.
  - destruct (isinstance e U3_SSLError) eqn:E3; [kind_done|].
    cbn [orb] in Hr. discriminate.
Qed.

Lemma handle_protocol_error_typed e :
  urllib3_fault e = true -> isinstance e U3_ProtocolError = true ->
  exists err, handle_protocol_error e = Some (Typed err) /\ kind_of err ∈ translated_kinds.
Proof.
  unfold urllib3_fault, handle_protocol_error. intros Hf Hp. rewrite Hp in *.
  apply andb_prop in Hf as [_ Hf].
  destruct (cause e) as [c|].
  - destruct (isinstance c HC_IncompleteRead) eqn:Ec; cbn [orb].
    + apply has_counts_inv in Hf as (p & x & -> & ->). kind_done.
    + apply negb_true_iff in Hf. rewrite Hf. kind_done.
  - cbn [orb]. destruct (Py.contains _ _); kind_done.
Qed.

Lemma dispatch_except_typed e :
  urllib3_fault e = true ->
  exists err, dispatch_except e = Some (Typed err) /\ kind_of err ∈ translated_kinds.
Proof.
  intros Hf. unfold dispatch_except.
  destruct (isinstance e U3_ConnectTimeoutError); [kind_done|].
  destruct (isinstance e U3_ProxyError); [kind_done|].
  destruct (isinstance_any e READ_ERRORS) eqn:Er.
  { destruct (handle_read_errors_typed e Hf Er) as (err & -> & Hk). eauto. }
  destruct (isinstance e U3_ProtocolError) eqn:Ep.
  { exact (handle_protocol_error_typed e Hf Ep). }
  unfold urllib3_fault in Hf.
  destruct (isinstance e U3_HTTPError); [kind_done|discriminate].
Qed.

Lemma dispatch_except_foreign e :
  isinstance_any e caught_classes = false -> dispatch_except e = Some (Raw e).
Proof.
  intros Hn. unfold isinstance_any, caught_classes in Hn. cbn [existsb] in Hn.
  repeat (apply orb_false_iff in Hn as [? Hn]).
  unfold dispatch_except, isinstance_any, READ_ERRORS. cbn [existsb].
  repeat match goal with H : isinstance e _ = false |- _ => rewrite H; clear H end.
  reflexivity.
Qed.

Lemma read_typed e :
  urllib3_fault e = true ->
  exists err, read (inl e) = Raise (Typed err) /\ kind_of err ∈ translated_kinds.
Proof.
  intros Hf. unfold read.
  destruct (isinstance_any e READ_ERRORS) eqn:Er.
  { destruct (handle_read_errors_typed e Hf Er) as (err & -> & Hk). eauto. }
  destruct (isinstance e U3_ProtocolError) eqn:Ep.
  { destruct (handle_protocol_error_typed e Hf Ep) as (err & -> & Hk). eauto. }
  unfold urllib3_fault in Hf.
  destruct (isinstance e U3_HTTPError); [kind_done|discriminate].
Qed.

End ErrorTranslation.

(** ** The handler *)

Section Handler.

Context {Jar : Type}.
Variable cookie_attr : Jar -> Request -> option string.
Variable extract_cookies : Jar -> Response -> Request -> Jar.
Variable jar_truthy : Jar -> bool.
Variable parse_url : string -> raw_exc + U3Url.Url.
Variable socks_create_proxy_args : string -> option raw_exc.
Variable std_headers : Headers.store.
Variable brotli : bool.
Variable urlopen : pool_manager -> urlopen_args -> raw_exc + u3_response.

Local Abbreviation prepare := (prepare_dispatch cookie_attr parse_url socks_create_proxy_args std_headers brotli).
Local Abbreviation finish := (complete extract_cookies jar_truthy).
Local Abbreviation handle :=
  (_real_handle cookie_attr extract_cookies jar_truthy parse_url socks_create_proxy_args std_headers brotli urlopen).

Lemma handle_unfold (self : @Urllib3RH Jar) request d :
  prepare self request = inr d ->
  handle self request = finish d (urlopen (d_pool d) (d_args d)).
Proof. intros E. unfold _real_handle. now rewrite E. Qed.

(** What the [except] clauses do: an exception raised by [urlopen], after
    the reason of a [MaxRetryError] has been taken out, or raised by the raw
    response's [read], that is an instance of urllib3's [HTTPError] and has
    the incomplete-read attributes the translators read, reaches the caller
    as one typed error whose kind is Transport, ConnectTimeout, ReadTimeout,
    IncompleteRead, TLS or Proxy; the handler's state is the one it had
    when it made the call.  An exception that is an instance of none of the
    urllib3 classes named in the [except] clauses is not caught: it leaves
    [_real_handle] and [read] as it is. *)
Lemma urllib3_fault_surfaces_typed :
  (forall (d : dispatch) (r : raw_exc),
      urllib3_fault (unwrap_max_retry r) = true ->
      exists err, finish d (inl r) = (Raise (Typed err), d_self d)
                  /\ kind_of err ∈ translated_kinds)
  /\ (forall e : raw_exc,
      urllib3_fault e = true ->
      exists err, read (inl e) = Raise (Typed err) /\ kind_of err ∈ translated_kinds)
  /\ (forall (d : dispatch) (r : raw_exc),
      isinstance_any (unwrap_max_retry r) caught_classes = false ->
      finish d (inl r) = (Raise (Raw (unwrap_max_retry r)), d_self d))
  /\ (forall e : raw_exc,
      isinstance_any e caught_classes = false ->
      read (inl e) = Raise (Raw e)).
Proof.
  split; [|split; [|split]].
  - intros d r Hf. unfold complete.
    destruct (dispatch_except_typed _ Hf) as (err & -> & Hk). eauto.
  - exact read_typed.
  - intros d r Hn. unfold complete. now rewrite (dispatch_except_foreign _ Hn).
  - intros e Hn. unfold isinstance_any, caught_classes in Hn. cbn [existsb] in Hn.
    repeat (apply orb_false_iff in Hn as [? Hn]).
    unfold read, isinstance_any, READ_ERRORS. cbn [existsb].
    repeat match goal with H : isinstance e _ = false |- _ => rewrite H; clear H end.
    reflexivity.
Qed.



(** C8, as the code has it: a truncated read raised as urllib3
    [IncompleteRead], or as a [ProtocolError] whose cause is an
    [http.client.IncompleteRead], becomes [IncompleteRead] with that
    exception's [partial] and [expected] unchanged; a [ProtocolError]
    without a cause becomes [TransportError], whatever its message. *)
Theorem incomplete_read_carries_backend_counts (e : raw_exc) (p x : Py.pyval) :
  (isinstance e U3_ReadTimeoutError = false ->
   isinstance e U3_IncompleteRead = true ->
   partial e = Some p -> expected e = Some x ->
   read (inl e) = Raise (Typed (IncompleteRead p x e)))
  /\ (forall c,
      isinstance_any e READ_ERRORS = false ->
      isinstance e U3_ProtocolError = true ->
      cause e = Some c -> isinstance c HC_IncompleteRead = true ->
      partial c = Some p -> expected c = Some x ->
      read (inl e) = Raise (Typed (IncompleteRead p x e)))
  /\ (isinstance_any e READ_ERRORS = false ->
      isinstance e U3_ProtocolError = true ->
      cause e = None ->
      read (inl e) = Raise (Typed (TransportError (str_ e) e))).
Proof.
  split; [|split].
  - intros E1 E2 Hp Hx. unfold read, isinstance_any, READ_ERRORS, handle_read_errors.
    cbn [existsb]. rewrite E1, E2, Hp, Hx. reflexivity.
  - intros c Er Ep Hc Ec Hp Hx. unfold read, handle_protocol_error.
    rewrite Er, Ep, Hc, Ec, Hp, Hx. reflexivity.
  - intros Er Ep Hc. unfold read, handle_protocol_error.
    rewrite Er, Ep, Hc. cbn [orb]. destruct (Py.contains _ _); reflexivity.
Qed.

(** *** Header collections *)

Lemma contains_app n (h1 h2 : Headers.store) :
  Headers.contains n (h1 ++ h2) = Headers.contains n h1 || Headers.contains n h2.
Proof. unfold Headers.contains. apply existsb_app. Qed.

Lemma name_eqb_trans a b c :
  Headers.name_eqb a b = true -> Headers.name_eqb a c = Headers.name_eqb b c.
Proof.
  unfold Headers.name_eqb. intros H. apply bool_decide_eq_true in H. now rewrite H.
Qed.

Lemma contains_set n m v (h : Headers.store) :
  Headers.contains n (Headers.set m v h) = Headers.contains n h || Headers.name_eqb n m.
Proof.
  unfold Headers.set. destruct (Headers.contains m h) eqn:Em.
  - assert (Hmap : Headers.contains n
              (List.map (fun kv => if Headers.name_eqb m kv.1 then (kv.1, v) else kv) h)
            = Headers.contains n h).
    { unfold Headers.contains. clear Em. induction h as [|[k w] h IH]; [reflexivity|].
      cbn [List.map existsb fst]. rewrite IH. now destruct (Headers.name_eqb m k). }
    rewrite Hmap. destruct (Headers.name_eqb n m) eqn:Enm; [|now rewrite orb_false_r].
    rewrite orb_true_r. unfold Headers.contains in *.
    apply existsb_exists in Em as (kv & Hin & Hkv). apply existsb_exists.
    exists kv. split; [exact Hin|]. now rewrite (name_eqb_trans _ _ _ Enm).
  - rewrite contains_app. unfold Headers.contains at 2. cbn [existsb fst].
    now rewrite orb_false_r.
Qed.



Lemma contains_del n m (h : Headers.store) :
  Headers.contains n (Headers.del m h)
  = Headers.contains n h && negb (Headers.name_eqb n m).
Proof.
  unfold Headers.del, Headers.contains, Headers.name_eqb.
  induction h as [|[k v] h IH]; [reflexivity|].
  cbn [List.filter existsb fst].
  destruct (decide (Py.lower n = Py.lower m)) as [Enm|Enm];
    destruct (decide (Py.lower m = Py.lower k)) as [Emk|Emk];
    destruct (decide (Py.lower n = Py.lower k)) as [Enk|Enk];
    try congruence;
    rewrite ?(bool_decide_eq_true_2 _ Enm), ?(bool_decide_eq_false_2 _ Enm),
      ?(bool_decide_eq_true_2 _ Emk), ?(bool_decide_eq_false_2 _ Emk),
      ?(bool_decide_eq_true_2 _ Enk), ?(bool_decide_eq_false_2 _ Enk) in *;
    cbn [negb existsb fst orb andb] in *;
    rewrite ?(bool_decide_eq_true_2 _ Enk), ?(bool_decide_eq_false_2 _ Enk);
    cbn [orb]; rewrite ?andb_false_r, ?andb_true_r in *; try reflexivity; exact IH.
Qed.

Lemma contains_lower_key n (u : Headers.store) :
  Headers.contains n u = true -> Py.lower n ∈ List.map Py.lower (Headers.keys u).
Proof.
  unfold Headers.contains, Headers.keys, Headers.name_eqb. intros H.
  apply existsb_exists in H as ([k v] & Hin & Hk). cbn [fst] in Hk.
  apply bool_decide_eq_true in Hk. rewrite Hk.
  apply list_elem_of_In, in_map, (in_map fst _ _ Hin).
Qed.

(** *** Redirects *)

Local Abbreviation strip remove :=
  (List.filter (fun kv : string * string => negb (bool_decide (Py.lower kv.1 ∈ remove)))).

(** what is left after the names in [remove] were stripped *)
Lemma strip_contains (remove : list string) n (h : Headers.store) :
  Py.lower n ∈ remove -> Headers.contains n (strip remove h) = false.
Proof.
  intros Hin. unfold Headers.contains, Headers.name_eqb.
  induction h as [|[k v] h IH]; [reflexivity|].
  cbn [List.filter fst].
  destruct (decide (Py.lower k ∈ remove)) as [Hk|Hk].
  - rewrite (bool_decide_eq_true_2 _ Hk). cbn [negb]. exact IH.
  - rewrite (bool_decide_eq_false_2 _ Hk). cbn [negb existsb fst]. rewrite IH.
    rewrite bool_decide_eq_false_2; [reflexivity|]. intros E. apply Hk. now rewrite <- E.
Qed.

Lemma strip_get (remove : list string) n (h : Headers.store) :
  Py.lower n ∉ remove -> Headers.get n (strip remove h) = Headers.get n h.
Proof.
  intros Hn. unfold Headers.get, Headers.name_eqb.
  induction h as [|[k v] h IH]; [reflexivity|].
  cbn [List.filter List.find fst].
  destruct (decide (Py.lower n = Py.lower k)) as [E|E].
  - rewrite bool_decide_eq_false_2 by (now rewrite <- E). cbn [negb List.find fst].
    now rewrite (bool_decide_eq_true_2 _ E).
  - rewrite (bool_decide_eq_false_2 _ E).
    destruct (bool_decide _); cbn [negb List.find fst];
      rewrite ?(bool_decide_eq_false_2 _ E); exact IH.
Qed.

Lemma content_specific_eqb n k :
  Headers.name_eqb n k = true -> U3.content_specific k = U3.content_specific n.
Proof.
  intros H. unfold U3.content_specific, U3.content_specific_headers. cbn [existsb].
  now rewrite <- !(name_eqb_trans _ _ _ H).
Qed.


Lemma method_change_get n (h : Headers.store) :
  U3.content_specific n = false ->
  Headers.get n (U3.prepare_for_method_change h) = Headers.get n h.
Proof.
  intros Hn. unfold U3.prepare_for_method_change, Headers.get.
  induction h as [|[k v] h IH]; [reflexivity|].
  cbn [List.filter List.find fst].
  destruct (Headers.name_eqb n k) eqn:Ek.
  - rewrite (content_specific_eqb _ _ Ek), Hn. cbn [negb List.find fst]. now rewrite Ek.
  - destruct (U3.content_specific k); cbn [negb List.find fst]; rewrite ?Ek; exact IH.
Qed.

(** the header set after a redirect, once the pool of the hop and its
    verdict on the location are known *)
Lemma redirect_headers_applied manager retries url status location conn same
    (h : Headers.store) :
  hop_pool parse_url manager url = inr conn ->
  is_same_host parse_url conn location = inr same ->
  let h0 := if status =? 303 then U3.prepare_for_method_change h else h in
  let remove := List.map Py.lower (remove_headers_on_redirect retries) in
  redirect_headers parse_url manager retries url status location h
  = inr (if same then h0 else strip remove h0).
Proof.
  intros Hp Hs h0 remove. unfold redirect_headers. rewrite Hp, Hs.
  fold remove. fold h0. destruct remove as [|r0 rs] eqn:Er.
  - destruct same; [reflexivity|]. f_equal. symmetry.
    induction h0 as [|[k v] h0 IH]; [reflexivity|].
    cbn [List.filter fst]. rewrite bool_decide_eq_false_2 by apply not_elem_of_nil.
    cbn [negb]. now rewrite IH.
  - now destruct same.
Qed.


(** *** Before the call *)

Lemma add_cookie_header_fields jar request :
  let request' := add_cookie_header cookie_attr jar request in
  req_url request' = req_url request
  /\ req_proxy request' = req_proxy request
  /\ req_compression request' = req_compression request
  /\ req_headers request' = req_headers request
  /\ (forall n, Headers.contains n (req_unredirected_headers request) = true ->
                Headers.contains n (req_unredirected_headers request') = true).
Proof.
  unfold add_cookie_header.
  destruct (cookie_attr jar request) as [v|]; [|now repeat split].
  destruct (has_cookie_header request); [now repeat split|].
  cbn [req_url req_proxy req_compression req_headers req_unredirected_headers].
  do 4 (split; [reflexivity|]). intros n Hn. rewrite contains_set, Hn. reflexivity.
Qed.

Lemma resolve_proxy_add_cookie jar request :
  resolve_proxy parse_url (add_cookie_header cookie_attr jar request)
  = resolve_proxy parse_url request.
Proof.
  destruct (add_cookie_header_fields jar request) as (Hu & Hp & _).
  unfold resolve_proxy. now rewrite Hu, Hp.
Qed.

(** what [prepare_dispatch] has fixed when it succeeds *)
Lemma prepare_inv (self : @Urllib3RH Jar) request d :
  prepare self request = inr d ->
  exists proxy,
    cookiejar self = Some (d_jar d)
    /\ d_request d = add_cookie_header cookie_attr (d_jar d) request
    /\ resolve_proxy parse_url request = inr proxy
    /\ (get_pool parse_url socks_create_proxy_args self proxy).1 = inr (d_pool d)
    /\ d_self d = (get_pool parse_url socks_create_proxy_args self proxy).2
    /\ d_args d = make_urlopen_args (d_request d) (make_retries (d_request d))
                    (dispatch_headers std_headers brotli self (d_request d)).
Proof.
  unfold prepare_dispatch. destruct (cookiejar self) as [jar|] eqn:Ej; [|discriminate].
  rewrite resolve_proxy_add_cookie.
  destruct (resolve_proxy parse_url request) as [e|proxy]; [discriminate|].
  destruct (get_pool parse_url socks_create_proxy_args self proxy)
    as [[e|pool] self'] eqn:Eg; [discriminate|].
  intros [= <-]. exists proxy. cbn [d_jar d_request d_pool d_self d_args fst snd].
  repeat split; now rewrite Eg.
Qed.

(** the pool that receives the call is registered under the resolved proxy *)
Lemma prepare_pool_registered (self : @Urllib3RH Jar) request d proxy :
  prepare self request = inr d ->
  resolve_proxy parse_url request = inr proxy ->
  get_pool parse_url socks_create_proxy_args self proxy = (inr (d_pool d), d_self d)
  /\ pools (d_self d) !! pool_key proxy = Some (d_pool d).
Proof.
  intros H Hr. destruct (prepare_inv _ _ _ H) as (q & _ & _ & Hq & Hp & Hs & _).
  rewrite Hr in Hq. injection Hq as <-.
  assert (E : get_pool parse_url socks_create_proxy_args self proxy
              = (inr (d_pool d), d_self d)).
  { rewrite Hs, <- Hp. now destruct (get_pool _ _ self proxy). }
  split; [exact E|]. now apply get_pool_returned in E as [E _].
Qed.

Lemma prepare_keeps_cookiejar (self : @Urllib3RH Jar) request d :
  prepare self request = inr d -> cookiejar (d_self d) = Some (d_jar d).
Proof.
  intros H. destruct (prepare_inv _ _ _ H) as (proxy & Hj & _ & _ & _ & Hs & _).
  rewrite Hs, <- Hj. apply get_pool_params.
Qed.

(** C9: when the request's compression flag is false, the headers handed to
    [urlopen] hold no [Accept-Encoding] header in any spelling, whatever the
    caller, the session options or the default headers set. *)
Theorem no_accept_encoding_without_compression (self : @Urllib3RH Jar) request d :
  prepare self request = inr d ->
  req_compression request = false ->
  Headers.contains "Accept-Encoding" (arg_headers (d_args d)) = false
  /\ forall name, Headers.name_eqb name "accept-encoding" = true ->
                  Headers.get name (arg_headers (d_args d)) = None.
Proof.
  intros Hprep Hc.
  destruct (prepare_inv _ _ _ Hprep) as (proxy & _ & Hr & _ & _ & _ & Ha).
  destruct (add_cookie_header_fields (d_jar d) request) as (_ & _ & Hc' & _).
  rewrite <- Hr in Hc'. rewrite Ha. cbn [arg_headers make_urlopen_args].
  unfold dispatch_headers. rewrite Hc', Hc. cbn [negb].
  assert (Hno : forall name h, Headers.name_eqb name "accept-encoding" = true ->
                  Headers.contains name (Headers.del "accept-encoding" h) = false).
  { intros name h Hn. rewrite contains_del, Hn. apply andb_false_r. }
  split; [now apply Hno|].
  intros name Hn. specialize (Hno name). unfold Headers.get.
  match goal with |- context [Headers.del _ ?h] => specialize (Hno h Hn); revert Hno;
    generalize (Headers.del "accept-encoding" h) end.
  intros h Hh. unfold Headers.contains in Hh.
  destruct (List.find _ h) as [kv|] eqn:Ef; [|reflexivity].
  apply find_some in Ef as [Hin Hkv].
  assert (existsb (fun kv => Headers.name_eqb name kv.1) h = true)
    by (apply existsb_exists; eauto).
  congruence.
Qed.



(** *** Proxy resolution *)


Lemma str_app_assoc a b c : (a +:+ b) +:+ c = a +:+ (b +:+ c).
Proof.
  induction a as [|x a IH]; [reflexivity|].
  change (String x ((a +:+ b) +:+ c) = String x (a +:+ (b +:+ c))). now rewrite IH.
Qed.

Lemma str_app_nil a : a +:+ EmptyString = a.
Proof.
  induction a as [|x a IH]; [reflexivity|].
  change (String x (a +:+ EmptyString) = String x a). now rewrite IH.
Qed.




(** *** The response adapter *)

Lemma truthy_netloc a b : Py.truthy (a +:+ ":" +:+ b) = true.
Proof. now destruct a. Qed.

Lemma adapter_fields r res :
  Urllib3ResponseAdapter r = Ret res ->
  _res res = r /\ status res = u3_status r /\ headers res = u3_headers r.
Proof.
  unfold Urllib3ResponseAdapter.
  destruct (u3_geturl r) as [u|]; [|now intros [= <-]].
  destruct (Py.truthy u); [|now intros [= <-]].
  destruct (UrlParse.urlparse u) as [p|]; [|discriminate].
  destruct (UrlParse.hostname p); [now intros [= <-]|].
  destruct (u3_connection r); [now intros [= <-]|discriminate].
Qed.

(** C10, as the code has it: for a reported URL that is not empty and
    parses without a hostname, the final URL is put together again from the
    parsed pieces with the scheme [https] and the network location
    [host:port] of the live connection, so it starts with
    [https://host:port]; for a reported URL with a hostname the final URL
    is the URL put together again from its parsed pieces. *)
Theorem adapter_final_url (r : u3_response) (u : string) (p : UrlParse.ParseResult) :
  u3_geturl r = Some u -> Py.truthy u = true ->
  UrlParse.urlparse u = Some p ->
  match UrlParse.hostname p with
  | None =>
      forall c, u3_connection r = Some c ->
        exists res tail,
          Urllib3ResponseAdapter r = Ret res
          /\ geturl res
             = Some (UrlParse.geturl
                       (UrlParse.replace_netloc_scheme p
                          (conn_host c +:+ ":" +:+ pretty (conn_port c)) "https"))
          /\ geturl res
             = Some ("https://" +:+ conn_host c +:+ ":" +:+ pretty (conn_port c) +:+ tail)
  | Some _ =>
      exists res,
        Urllib3ResponseAdapter r = Ret res
        /\ geturl res = Some (UrlParse.geturl p)
  end.
Proof.
  intros Hu Ht Hp. unfold Urllib3ResponseAdapter. rewrite Hu, Ht, Hp.
  destruct (UrlParse.hostname p) as [h|].
  - eexists. split; reflexivity.
  - intros c ->. eexists. 
    set (rest := if Py.truthy (UrlParse.params p)
                 then UrlParse.path p +:+ ";" +:+ UrlParse.params p
                 else UrlParse.path p).
    set (rest' := if Py.truthy rest && negb (Py.startswith "/" rest)
                  then "/" +:+ rest else rest).
    exists ((rest' +:+ (if Py.truthy (UrlParse.query p)
                        then "?" +:+ UrlParse.query p else EmptyString))
            +:+ (if Py.truthy (UrlParse.fragment p)
                 then "#" +:+ UrlParse.fragment p else EmptyString)).
    split; [reflexivity|]. split; [reflexivity|].
    unfold geturl. cbn [_url]. f_equal.
    unfold UrlParse.geturl, UrlParse.urlunsplit.
    cbn [UrlParse.replace_netloc_scheme UrlParse.scheme UrlParse.netloc UrlParse.path
         UrlParse.params UrlParse.query UrlParse.fragment].
    fold rest. rewrite truthy_netloc. cbn [orb]. fold rest'.
    change (Py.truthy "https") with true. cbv iota.
    destruct (Py.truthy (UrlParse.query p)), (Py.truthy (UrlParse.fragment p));
      rewrite ?str_app_nil, ?str_app_assoc; reflexivity.
Qed.

(** *** HTTP errors and the connection *)

Lemma run_ops_overridden ops : forall w r,
  u3_release_conn_overridden r = true ->
  idle (run_ops ops w r).1 = idle w
  /\ (forall c, c ∈ closed w -> c ∈ closed (run_ops ops w r).1)
  /\ (u3_connection r = None -> u3_connection (run_ops ops w r).2 = None).
Proof.
  induction ops as [|op ops IH]; intros w r Ho; [now cbn|].
  destruct op; cbn [run_ops]; unfold release_conn, close_res;
    destruct (u3_connection r) as [c0|] eqn:Ec; rewrite ?Ho.
  - destruct (IH {| idle := idle w; closed := c0 :: closed w |}
                 (with_connection r None) Ho) as (Hi & Hc & Hn).
    split; [exact Hi|]. split; [|discriminate].
    intros c Hin. apply Hc. cbn. now right.
  - destruct (IH w r Ho) as (Hi & Hc & Hn). rewrite Ec in Hn. now repeat split.
  - destruct (IH {| idle := idle w; closed := c0 :: closed w |} r Ho) as (Hi & Hc & Hn).
    split; [exact Hi|]. split; [|discriminate].
    intros c Hin. apply Hc. cbn. now right.
  - destruct (IH w r Ho) as (Hi & Hc & Hn). rewrite Ec in Hn. now repeat split.
Qed.

Lemma run_ops_closes op ops w r c :
  u3_release_conn_overridden r = true -> u3_connection r = Some c ->
  c ∈ closed (run_ops (op :: ops) w r).1.
Proof.
  intros Ho Ec.
  destruct op; cbn [run_ops]; unfold release_conn, close_res; rewrite Ec, ?Ho.
  - apply run_ops_overridden; [exact Ho|]. cbn. now left.
  - apply run_ops_overridden; [exact Ho|]. cbn. now left.
Qed.

Lemma run_ops_releases ops : forall w r,
  u3_release_conn_overridden r = true -> OpReleaseConn ∈ ops ->
  u3_connection (run_ops ops w r).2 = None.
Proof.
  induction ops as [|op ops IH]; intros w r Ho Hin; [inversion Hin|].
  destruct op; cbn [run_ops].
  - unfold release_conn. destruct (u3_connection r) as [c0|] eqn:Ec; rewrite ?Ho.
    + now apply run_ops_overridden.
    + now apply run_ops_overridden.
  - apply elem_of_cons in Hin as [Hin|Hin]; [discriminate|].
    unfold close_res. destruct (u3_connection r); now apply IH.
Qed.

(** C2: when the final status is outside 200-299 the handler raises
    [HTTPError] for the adapted response (once the adapter could be built).
    The response it carries still holds the connection and has
    [release_conn] replaced: whatever the caller then does with it, the
    idle set of the pool stays as it was, the first release or close closes
    the connection, and a release takes it off the response. *)
Theorem http_error_discards_connection (self : @Urllib3RH Jar) request d r res :
  prepare self request = inr d ->
  urlopen (d_pool d) (d_args d) = inr r ->
  Urllib3ResponseAdapter r = Ret res ->
  ~ (200 <= u3_status r < 300) ->
  exists res',
    handle self request
    = (Raise (Typed (HTTPError res' (bool_decide (u3_retries_total r = Some 0)))),
       d_self d)
    /\ kind_of (HTTPError res' (bool_decide (u3_retries_total r = Some 0))) = KHTTPStatus
    /\ cookiejar (d_self d) = cookiejar self
    /\ u3_connection (_res res') = u3_connection r
    /\ forall (w : conn_world) (ops : list res_op),
         idle (run_ops ops w (_res res')).1 = idle w
         /\ forall c, u3_connection r = Some c -> ops <> [] ->
              c ∈ closed (run_ops ops w (_res res')).1
              /\ (OpReleaseConn ∈ ops ->
                  u3_connection (run_ops ops w (_res res')).2 = None).
Proof.
  intros Hprep Hopen Had Hst.
  destruct (adapter_fields _ _ Had) as (Hres & Hstatus & _).
  rewrite (handle_unfold _ _ _ Hprep), Hopen. unfold complete. rewrite Had, Hstatus.
  assert ((200 <=? u3_status r) && (u3_status r <? 300) = false) as ->.
  { apply andb_false_iff.
    destruct (Z.leb_spec 200 (u3_status r)); [|now left].
    destruct (Z.ltb_spec (u3_status r) 300); [lia|now right]. }
  cbn [negb]. unfold Urllib3HTTPError. eexists. split; [reflexivity|].
  split; [reflexivity|]. split.
  { rewrite (prepare_keeps_cookiejar _ _ _ Hprep).
    destruct (prepare_inv _ _ _ Hprep) as (? & -> & _). reflexivity. }
  cbn [_res]. rewrite Hres. split; [reflexivity|].
  intros w ops. split; [now apply run_ops_overridden|].
  intros c Hc Hne. destruct ops as [|op ops]; [congruence|]. split.
  - now apply run_ops_closes.
  - now apply run_ops_releases.
Qed.

(** *** Cookies *)

Lemma get_none_iff n (h : Headers.store) :
  Headers.contains n h = false -> Headers.get n h = None.
Proof.
  unfold Headers.contains, Headers.get. intros H.
  destruct (List.find _ h) as [kv|] eqn:Ef; [|reflexivity].
  apply find_some in Ef as [Hin Hkv].
  assert (existsb (fun kv => Headers.name_eqb n kv.1) h = true)
    by (apply existsb_exists; eauto).
  congruence.
Qed.

Lemma get_app_new n v (h : Headers.store) :
  Headers.contains n h = false -> Headers.get n (h ++ [(n, v)]) = Some v.
Proof.
  unfold Headers.contains, Headers.get. intros H.
  induction h as [|[k w] h IH]; cbn [app List.find fst existsb] in *.
  - unfold Headers.name_eqb. now rewrite bool_decide_eq_true_2.
  - apply orb_false_iff in H as [Hk Hh]. rewrite Hk. now apply IH.
Qed.

Lemma get_set_same n v (h : Headers.store) :
  Headers.get n (Headers.set n v h) = Some v.
Proof.
  unfold Headers.set. destruct (Headers.contains n h) eqn:Ec.
  - unfold Headers.contains, Headers.get in *.
    induction h as [|[k w] h IH]; [discriminate|].
    cbn [List.map List.find existsb fst] in *.
    destruct (Headers.name_eqb n k) eqn:Ek; cbn [fst]; rewrite ?Ek; [reflexivity|].
    cbn [orb] in Ec. now apply IH.
  - now apply get_app_new.
Qed.

Lemma get_set_other n m v (h : Headers.store) :
  Headers.name_eqb n m = false -> Headers.get n (Headers.set m v h) = Headers.get n h.
Proof.
  intros Hnm. unfold Headers.set. destruct (Headers.contains m h).
  - unfold Headers.get. induction h as [|[k w] h IH]; [reflexivity|].
    cbn [List.map List.find fst].
    destruct (Headers.name_eqb m k) eqn:Emk; cbn [fst].
    + assert (Headers.name_eqb n k = false) as ->.
      { unfold Headers.name_eqb in *. apply bool_decide_eq_true in Emk.
        apply bool_decide_eq_false in Hnm. apply bool_decide_eq_false. congruence. }
      exact IH.
    + destruct (Headers.name_eqb n k); [reflexivity|exact IH].
  - unfold Headers.get. induction h as [|[k w] h IH]; cbn [app List.find fst].
    + now rewrite Hnm.
    + destruct (Headers.name_eqb n k); [reflexivity|exact IH].
Qed.

Lemma get_del_other n m (h : Headers.store) :
  Headers.name_eqb n m = false -> Headers.get n (Headers.del m h) = Headers.get n h.
Proof.
  intros Hnm. unfold Headers.del, Headers.get.
  induction h as [|[k w] h IH]; [reflexivity|].
  cbn [List.filter List.find fst].
  destruct (Headers.name_eqb m k) eqn:Emk; cbn [negb List.find fst].
  - assert (Headers.name_eqb n k = false) as ->.
    { unfold Headers.name_eqb in *. apply bool_decide_eq_true in Emk.
      apply bool_decide_eq_false in Hnm. apply bool_decide_eq_false. congruence. }
    exact IH.
  - destruct (Headers.name_eqb n k); [reflexivity|exact IH].
Qed.

Lemma get_make_last n v (layers : list (option Headers.store)) (u : Headers.store) :
  Headers.get n (Headers.make (layers ++ [Some (u ++ [(n, v)])])) = Some v.
Proof.
  unfold Headers.make. rewrite fold_left_app. cbn [fold_left].
  unfold Headers.update. rewrite fold_left_app. cbn [fold_left fst snd].
  apply get_set_same.
Qed.

(** the [Cookie] header of the store reaches the dispatched header set *)
Lemma cookie_header_dispatched (self : @Urllib3RH Jar) request jar v :
  cookie_attr jar request = Some v ->
  has_cookie_header request = false ->
  Headers.get "Cookie"
    (dispatch_headers std_headers brotli self (add_cookie_header cookie_attr jar request))
  = Some v.
Proof.
  intros Hv Hh. unfold add_cookie_header. rewrite Hv, Hh.
  apply orb_false_iff in Hh as [_ Hu].
  assert (Hset : Headers.set "Cookie" v (req_unredirected_headers request)
                 = req_unredirected_headers request ++ [("Cookie", v)])
    by (unfold Headers.set; now rewrite Hu).
  rewrite Hset. unfold dispatch_headers.
  cbn [req_headers req_unredirected_headers req_compression].
  set (merged := Headers.make _).
  assert (Hm : Headers.get "Cookie" merged = Some v).
  { subst merged.
    apply (get_make_last "Cookie" v
             [Some std_headers; http_headers (params self);
              Some (req_headers request)]). }
  assert (Hae : Headers.get "Cookie"
            (if negb (Headers.contains "Accept-Encoding" merged)
             then Headers.set "Accept-Encoding"
                    (Py.join ", " (SUPPORTED_ENCODINGS brotli)) merged
             else merged) = Some v).
  { destruct (negb _); [|exact Hm]. now rewrite get_set_other. }
  destruct (negb (req_compression request)); [|exact Hae].
  now rewrite get_del_other.
Qed.


End Handler.

(** ** The properties on concrete requests *)

Section Concrete.

Import Scenario.

Local Abbreviation prepare_c :=
  (prepare_dispatch cookie_attr parse_url socks_create_proxy_args std_headers true handler).
Local Abbreviation finish_c := (complete extract_cookies jar_truthy).

(** C1 fails on the code.  [parse_url] is called on the proxy before the
    [try]: the [LocationParseError] it raises for a proxy whose port is out
    of range, a urllib3 exception that the last [except] clause turns into
    [TransportError] when [urlopen] raises it, leaves [_real_handle] as it
    is.  And when the SOCKS connect is refused, [_new_conn] raises
    [TypeError] where it means to raise a urllib3 exception; no clause
    catches that. *)
Lemma backend_fault_escapes_untranslated :
  let req := request "https://example.com/watch" (Some "http://127.0.0.1:99999") true in
  let e := location_parse_error "http://127.0.0.1:99999" in
  parse_url "http://127.0.0.1:99999" = inl e
  /\ isinstance e U3_HTTPError = true
  /\ handle (urlopen_returns ok_response) handler req = (Raise (Raw e), handler)
  /\ (forall d : @dispatch Jar,
        finish_c d (inl e) = (Raise (Typed (TransportError (str_ e) e)), d_self d))
  /\ exists te,
       @_new_conn unit (inl connection_refused) = Raise (Raw te)
       /\ isinstance_any te caught_classes = false
       /\ forall d : @dispatch Jar, finish_c d (inl te) = (Raise (Raw te), d_self d).
Proof.
  intros req e. split; [vm_compute; reflexivity|]. split; [reflexivity|].
  split; [vm_compute; reflexivity|]. split; [intros d; reflexivity|].
  eexists. split; [reflexivity|]. split; [reflexivity|]. intros d. reflexivity.
Qed.

(** C3 fails as stated: for a proxy that no pool manager takes, [get_pool]
    raises, on the first call and on every later one, and the registry
    keeps no pool for the identity; the request fails. *)
Lemma get_pool_raises_for_unknown_scheme :
  let pool_of := get_pool parse_url socks_create_proxy_args in
  let proxy := Some "ftp://1.2.3.4:21" in
  let req := request "https://example.com/watch" proxy true in
  pool_key proxy = "ftp://1.2.3.4:21"
  /\ pool_of handler proxy = (inl (U3.proxy_scheme_unknown (Some "ftp")), handler)
  /\ pools (pool_of (pool_of handler proxy).2 proxy).2 !! pool_key proxy = None
  /\ exists err,
       handle (urlopen_returns ok_response) handler req = (Raise (Typed err), handler)
       /\ kind_of err = KTransport
       /\ error_cause err = Some (U3.proxy_scheme_unknown (Some "ftp")).
Proof.
  intros pool_of proxy req. split; [reflexivity|]. split; [vm_compute; reflexivity|].
  split; [vm_compute; reflexivity|].
  eexists. split; [vm_compute; reflexivity|]. split; reflexivity.
Qed.



(** C8 fails as stated: a truncated read that the backend reports in the
    message of a [ProtocolError] without a cause surfaces as
    [TransportError], not as [IncompleteRead]. *)
Lemma truncated_read_in_message_is_transport :
  let e := protocol_error_message_only in
  isinstance e U3_ProtocolError = true
  /\ Py.contains "incomplete read" (Py.lower (str_ e)) = true
  /\ read (inl e) = Raise (Typed (TransportError (str_ e) e))
  /\ forall p x c, read (inl e) <> Raise (Typed (IncompleteRead p x c)).
Proof.
  intros e. split; [reflexivity|]. split; [reflexivity|].
  assert (H : read (inl e) = Raise (Typed (TransportError (str_ e) e)))
    by (vm_compute; reflexivity).
  split; [exact H|]. intros p x c. rewrite H. discriminate.
Qed.

(** what urllib3 puts into its [IncompleteRead] is the number of bytes read
    and the number of bytes still missing: for a body of 10 bytes cut after
    5 the error carries 5 and 5 *)
Example incomplete_read_five_of_ten :
  read (inl (u3_incomplete_read 5 5))
  = Raise (Typed (IncompleteRead (Py.PyInt 5) (Py.PyInt 5) (u3_incomplete_read 5 5))).
Proof. vm_compute. reflexivity. Qed.

Lemma incomplete_read_carries_backend_counts_witness :
  read (inl (u3_incomplete_read 4 6))
  = Raise (Typed (IncompleteRead (Py.PyInt 4) (Py.PyInt 6) (u3_incomplete_read 4 6)))
  /\ read (inl (protocol_error_incomplete 4 6))
     = Raise (Typed (IncompleteRead (Py.PyInt 4) (Py.PyInt 6)
                       (protocol_error_incomplete 4 6)))
  /\ read (inl protocol_error_message_only)
     = Raise (Typed (TransportError (str_ protocol_error_message_only)
                       protocol_error_message_only)).
Proof.
  split; [|split].
  - exact (proj1 (incomplete_read_carries_backend_counts
                    (u3_incomplete_read 4 6) (Py.PyInt 4) (Py.PyInt 6))
             eq_refl eq_refl eq_refl eq_refl).
  - exact (proj1 (proj2 (incomplete_read_carries_backend_counts
                           (protocol_error_incomplete 4 6) (Py.PyInt 4) (Py.PyInt 6)))
             (u3_incomplete_read 4 6) eq_refl eq_refl eq_refl eq_refl eq_refl eq_refl).
  - exact (proj2 (proj2 (incomplete_read_carries_backend_counts
                           protocol_error_message_only Py.PyNone Py.PyNone))
             eq_refl eq_refl eq_refl).
Defined.

Lemma no_accept_encoding_without_compression_witness :
  exists d,
    prepare_c (request "https://example.com/watch" None false) = inr d
    /\ Headers.contains "Accept-Encoding" (arg_headers (d_args d)) = false.
Proof.
  destruct (prepare_c (request "https://example.com/watch" None false))
    as [x|d] eqn:E; [vm_compute in E; discriminate|].
  exists d. split; [reflexivity|].
  exact (proj1 (no_accept_encoding_without_compression
                  cookie_attr parse_url socks_create_proxy_args std_headers true
                  handler _ d E eq_refl)).
Defined.





Lemma http_error_discards_connection_witness :
  let r := response "https://example.com/watch" 500 [("Set-Cookie", "sid=1")] in
  let req := request "https://example.com/watch" None true in
  ~ (200 <= u3_status r < 300)
  /\ exists res',
       (handle (urlopen_returns r) handler req).1
       = Raise (Typed (HTTPError res' false))
       /\ u3_connection (_res res') = Some conn1
       /\ forall w ops,
            idle (run_ops ops w (_res res')).1 = idle w
            /\ (ops <> [] -> conn1 ∈ closed (run_ops ops w (_res res')).1).
Proof.
  intros r req.
  assert (Hst : ~ (200 <= u3_status r < 300)) by (cbn; lia).
  split; [exact Hst|].
  destruct (prepare_c req) as [x|d] eqn:E; [vm_compute in E; discriminate|].
  destruct (Urllib3ResponseAdapter r) as [res|x] eqn:Ea;
    [|vm_compute in Ea; discriminate].
  destruct (http_error_discards_connection
              cookie_attr extract_cookies jar_truthy parse_url socks_create_proxy_args
              std_headers true
              (urlopen_returns r) handler req d r res E eq_refl Ea Hst)
    as (res' & Hh & _ & _ & Hc & Hops).
  exists res'. split; [|split].
  - unfold handle. rewrite Hh. reflexivity.
  - exact Hc.
  - intros w ops. destruct (Hops w ops) as [Hi Hcl]. split; [exact Hi|].
    intros Hne. exact (proj1 (Hcl conn1 eq_refl Hne)).
Defined.



(** C10 fails as stated: a reported URL that has a hostname and ends in an
    empty query comes back without the question mark. *)
Lemma reported_url_is_reassembled :
  let r := response "http://example.com/watch?" 200 [] in
  (UrlParse.hostname <$> UrlParse.urlparse "http://example.com/watch?")
  = Some (Some "example.com")
  /\ exists res,
       Urllib3ResponseAdapter r = Ret res
       /\ geturl res = Some "http://example.com/watch"
       /\ geturl res <> u3_geturl r.
Proof.
  intros r. split; [vm_compute; reflexivity|].
  eexists. split; [vm_compute; reflexivity|]. split; [reflexivity|].
  cbn. discriminate.
Qed.

Lemma adapter_final_url_witness :
  (exists res,
      Urllib3ResponseAdapter (response "http:/watch?v=1" 200 []) = Ret res
      /\ geturl res = Some "https://93.184.216.34:443/watch?v=1")
  /\ exists res,
      Urllib3ResponseAdapter (response "HTTP://Example.com/watch" 200 []) = Ret res
      /\ geturl res = Some "http://Example.com/watch".
Proof.
  split.
  - destruct (UrlParse.urlparse "http:/watch?v=1") as [p|] eqn:Ep;
      [|vm_compute in Ep; discriminate].
    pose proof (adapter_final_url (response "http:/watch?v=1" 200 []) _ p
                  eq_refl eq_refl Ep) as H.
    vm_compute in Ep. injection Ep as <-.
    destruct (H conn1 eq_refl) as (res & tail & Ha & Hg & _).
    exists res. split; [exact Ha|exact Hg].
  - destruct (UrlParse.urlparse "HTTP://Example.com/watch") as [p|] eqn:Ep;
      [|vm_compute in Ep; discriminate].
    pose proof (adapter_final_url (response "HTTP://Example.com/watch" 200 []) _ p
                  eq_refl eq_refl Ep) as H.
    vm_compute in Ep. injection Ep as <-.
    exact H.
Defined.

End Concrete.

(** ** Runs *)

Section Runs.

Import Scenario.

Example urlparse_relative :
  UrlParse.urlparse "/watch?v=1"
  = Some {| UrlParse.scheme := EmptyString; UrlParse.netloc := EmptyString;
            UrlParse.path := "/watch"; UrlParse.params := EmptyString;
            UrlParse.query := "v=1"; UrlParse.fragment := EmptyString |}.
Proof. vm_compute. reflexivity. Qed.

Example urlparse_userinfo_host :
  UrlParse.hostname <$> UrlParse.urlparse "http://user:pw@Example.com:80/a;b?x#y"
  = Some (Some "example.com").
Proof. vm_compute. reflexivity. Qed.

Example geturl_keeps_canonical_url :
  UrlParse.geturl <$> UrlParse.urlparse "https://example.com/a;b?x=1#y"
  = Some "https://example.com/a;b?x=1#y".
Proof. vm_compute. reflexivity. Qed.

(** with compression on, a caller's [Accept-Encoding] is kept; the headers
    that are not forwarded on redirect come last *)
Example dispatched_headers_with_compression :
  dispatch_headers std_headers true handler
    (add_cookie_header cookie_attr stored (request "https://example.com/watch" None true))
  = [("User-Agent", "Mozilla/5.0"); ("Accept", "*/*"); ("Accept-Encoding", "identity");
     ("X-Test", "1"); ("Authorization", "Bearer t"); ("Cookie", "sid=0")].
Proof. vm_compute. reflexivity. Qed.

(** the second call for an identity builds a manager too, and drops it *)
Example get_pool_builds_eagerly :
  let pool_of := get_pool parse_url socks_create_proxy_args in
  let s1 := (pool_of handler (Some "socks5://127.0.0.1:9050")).2 in
  let s2 := (pool_of s1 (Some "socks5://127.0.0.1:9050")).2 in
  next_id s2 = 2%nat /\ size (pools s2) = 1%nat
  /\ exists pm, (pool_of s1 (Some "socks5://127.0.0.1:9050")).1 = inr pm
                /\ pm_id pm = 0%nat.
Proof.
  vm_compute. split; [reflexivity|]. split; [reflexivity|].
  eexists. split; reflexivity.
Qed.


(** a handler switched off by the compatibility option takes no request *)
Example can_handle_force_disabled :
  can_handle (@_initialize Jar None
                {| http_headers := None; source_address := None;
                   compat_opts := ["no-urllib3"] |}) true = false.
Proof. vm_compute. reflexivity. Qed.

End Runs.

(** * Further properties of the module *)

Section Translators.

Context {Jar : Type}.
Variable extract_cookies : Jar -> Response -> Request -> Jar.
Variable jar_truthy : Jar -> bool.

Local Abbreviation finish := (complete extract_cookies jar_truthy).

Lemma handle_read_errors_kinds e err :
  handle_read_errors e = Typed err ->
  kind_of err ∈ [KReadTimeout; KIncompleteRead; KTLS] /\ error_cause err = Some e.
Proof.
  unfold handle_read_errors.
  destruct (isinstance e U3_ReadTimeoutError).
  { intros [= <-]. split; [set_solver|reflexivity]. }
  destruct (isinstance e U3_IncompleteRead).
  { destruct (partial e); [|discriminate]. destruct (expected e); [|discriminate].
    intros [= <-]. split; [set_solver|reflexivity]. }
  destruct (isinstance e U3_SSLError); [|discriminate].
  intros [= <-]. split; [set_solver|reflexivity].
Qed.

Lemma handle_protocol_error_kinds e err :
  handle_protocol_error e = Some (Typed err) ->
  kind_of err ∈ [KTransport; KIncompleteRead] /\ error_cause err = Some e.
Proof.
  unfold handle_protocol_error.
  destruct (isinstance e U3_ProtocolError); [|discriminate].
  destruct (_ || _).
  - destruct (cause e) as [c|].
    + destruct (partial c); [|discriminate]. destruct (expected c); [|discriminate].
      intros [= <-]. split; [set_solver|reflexivity].
    + intros [= <-]. split; [set_solver|reflexivity].
  - intros [= <-]. split; [set_solver|reflexivity].
Qed.

Lemma handle_protocol_error_raises e :
  isinstance e U3_ProtocolError = true -> exists x, handle_protocol_error e = Some x.
Proof.
  intros H. unfold handle_protocol_error. rewrite H.
  destruct (_ || _); [|eauto].
  destruct (cause e) as [c|]; [|eauto].
  destruct (partial c); [|eauto]. destruct (expected c); eauto.
Qed.

Lemma dispatch_except_raises e : exists x, dispatch_except e = Some x.
Proof.
  unfold dispatch_except.
  destruct (isinstance e U3_ConnectTimeoutError); [eauto|].
  destruct (isinstance e U3_ProxyError); [eauto|].
  destruct (isinstance_any e READ_ERRORS); [eauto|].
  destruct (isinstance e U3_ProtocolError) eqn:Ep; [|destruct (isinstance e U3_HTTPError); eauto].
  now apply handle_protocol_error_raises.
Qed.

(** X1: an exception raised by the raw response's [read] or by [urlopen] is
    never swallowed.  [read] raises and does not fall through to return
    [None]; in [_real_handle] every [except] clause raises, so the code after
    the [try] is not reached with [urllib3_res] unbound. *)
Theorem backend_fault_always_raises :
  (forall e : raw_exc, exists x, read (inl e) = Raise x)
  /\ (forall (d : dispatch) (r : raw_exc),
        exists x, dispatch_except (unwrap_max_retry r) = Some x
                  /\ finish d (inl r) = (Raise x, d_self d)).
Proof.
  split.
  - intros e. unfold read.
    destruct (isinstance_any e READ_ERRORS); [eauto|].
    destruct (isinstance e U3_ProtocolError) eqn:Ep.
    + destruct (handle_protocol_error_raises e Ep) as [x ->]. eauto.
    + destruct (isinstance e U3_HTTPError); eauto.
  - intros d r. destruct (dispatch_except_raises (unwrap_max_retry r)) as [x Hx].
    exists x. split; [exact Hx|]. unfold complete. now rewrite Hx.
Qed.

(** X2: which kinds each path can raise.  A typed error out of [read] is
    Transport, ReadTimeout, IncompleteRead or TLS, never ConnectTimeout or
    Proxy; a typed error for an exception of [urlopen] is never HTTPStatus;
    a typed error for a response that [urlopen] returned is always
    HTTPStatus. *)
Theorem error_kinds_by_path :
  (forall (e : raw_exc) (err : Error),
      read (inl e) = Raise (Typed err) ->
      kind_of err ∈ [KTransport; KReadTimeout; KIncompleteRead; KTLS])
  /\ (forall (d : dispatch) (r : raw_exc) (err : Error) s,
        finish d (inl r) = (Raise (Typed err), s) ->
        kind_of err ∈ translated_kinds)
  /\ (forall (d : dispatch) (r : u3_response) (err : Error) s,
        finish d (inr r) = (Raise (Typed err), s) ->
        kind_of err = KHTTPStatus).
Proof.
  split; [|split].
  - intros e err. unfold read.
    destruct (isinstance_any e READ_ERRORS).
    { intros [= H]. apply handle_read_errors_kinds in H as [H _]. set_solver. }
    destruct (isinstance e U3_ProtocolError).
    { destruct (handle_protocol_error e) as [x|] eqn:Eh; [|discriminate].
      intros [= ->]. apply handle_protocol_error_kinds in Eh as [H _]. set_solver. }
    destruct (isinstance e U3_HTTPError); [|discriminate].
    intros [= <-]. cbn. set_solver.
  - intros d r err s. unfold complete, dispatch_except.
    set (e := unwrap_max_retry r).
    destruct (isinstance e U3_ConnectTimeoutError).
    { intros [= <- _]. cbn. unfold translated_kinds. set_solver. }
    destruct (isinstance e U3_ProxyError).
    { intros [= <- _]. cbn. unfold translated_kinds. set_solver. }
    destruct (isinstance_any e READ_ERRORS).
    { intros [= H _]. apply handle_read_errors_kinds in H as [H _].
      unfold translated_kinds. set_solver. }
    destruct (isinstance e U3_ProtocolError).
    { destruct (handle_protocol_error e) as [x|] eqn:Eh; [|discriminate].
      intros [= -> _]. apply handle_protocol_error_kinds in Eh as [H _].
      unfold translated_kinds. set_solver. }
    destruct (isinstance e U3_HTTPError); [|discriminate].
    intros [= <- _]. cbn. unfold translated_kinds. set_solver.
  - intros d r err s. unfold complete.
    destruct (Urllib3ResponseAdapter r) as [res|x] eqn:Ea.
    + destruct (negb _); [|discriminate]. intros [= <- _]. reflexivity.
    + intros [= -> _]. exfalso. revert Ea. unfold Urllib3ResponseAdapter.
      destruct (u3_geturl r) as [u|]; [|discriminate].
      destruct (Py.truthy u); [|discriminate].
      destruct (UrlParse.urlparse u) as [p|]; [|discriminate].
      destruct (UrlParse.hostname p); [discriminate|].
      destruct (u3_connection r); discriminate.
Qed.

(** X3: the typed error built for a backend exception carries that exception
    as its cause: for [urlopen] the exception that left the inner [try] (the
    reason of a [MaxRetryError], not the wrapper), for [read] the exception
    [self._res.read] raised, also when the counts of an incomplete read come
    from that exception's own cause. *)
Theorem typed_error_wraps_the_fault :
  (forall (d : dispatch) (r : raw_exc) (err : Error) s,
      finish d (inl r) = (Raise (Typed err), s) ->
      error_cause err = Some (unwrap_max_retry r))
  /\ (forall (e : raw_exc) (err : Error),
        read (inl e) = Raise (Typed err) -> error_cause err = Some e).
Proof.
  split.
  - intros d r err s. unfold complete, dispatch_except.
    set (e := unwrap_max_retry r).
    destruct (isinstance e U3_ConnectTimeoutError); [now intros [= <- _]|].
    destruct (isinstance e U3_ProxyError); [now intros [= <- _]|].
    destruct (isinstance_any e READ_ERRORS).
    { intros [= H _]. now apply handle_read_errors_kinds in H as [_ H]. }
    destruct (isinstance e U3_ProtocolError).
    { destruct (handle_protocol_error e) as [x|] eqn:Eh; [|discriminate].
      intros [= -> _]. now apply handle_protocol_error_kinds in Eh as [_ H]. }
    destruct (isinstance e U3_HTTPError); [|discriminate].
    now intros [= <- _].
  - intros e err. unfold read.
    destruct (isinstance_any e READ_ERRORS).
    { intros [= H]. now apply handle_read_errors_kinds in H as [_ H]. }
    destruct (isinstance e U3_ProtocolError).
    { destruct (handle_protocol_error e) as [x|] eqn:Eh; [|discriminate].
      intros [= ->]. now apply handle_protocol_error_kinds in Eh as [_ H]. }
    destruct (isinstance e U3_HTTPError); [|discriminate].
    now intros [= <-].
Qed.

(** *** Releasing a connection *)

Lemma run_ops_no_connection ops : forall w r,
  u3_connection r = None -> run_ops ops w r = (w, r).
Proof.
  induction ops as [|op ops IH]; intros w r Hc; [reflexivity|].
  destruct op; cbn [run_ops]; unfold release_conn, close_res; rewrite Hc; now apply IH.
Qed.

(** X4: a release happens once.  After [release_conn] has run, no further
    release or close changes the idle set, the closed connections or the
    response; with the override of [Urllib3HTTPError] installed, a run that
    starts with a release closes the connection exactly once and never hands
    it to the pool. *)
Theorem release_happens_once (r : u3_response) (w : conn_world) (ops : list res_op) :
  run_ops (OpReleaseConn :: ops) w r = release_conn w r
  /\ (forall c, u3_connection r = Some c -> u3_release_conn_overridden r = true ->
        run_ops (OpReleaseConn :: ops) w r
        = ({| idle := idle w; closed := c :: closed w |}, with_connection r None)).
Proof.
  assert (H : run_ops (OpReleaseConn :: ops) w r = release_conn w r).
  { cbn [run_ops]. unfold release_conn.
    destruct (u3_connection r) as [c|] eqn:Ec.
    - destruct (u3_release_conn_overridden r); now apply run_ops_no_connection.
    - now apply run_ops_no_connection. }
  split; [exact H|]. intros c Hc Ho. rewrite H. unfold release_conn. now rewrite Hc, Ho.
Qed.

End Translators.

(** ** The registry as the handler runs *)

Section Registry.

Context {Jar : Type}.
Variable cookie_attr : Jar -> Request -> option string.
Variable extract_cookies : Jar -> Response -> Request -> Jar.
Variable jar_truthy : Jar -> bool.
Variable parse_url : string -> raw_exc + U3Url.Url.
Variable socks_create_proxy_args : string -> option raw_exc.
Variable std_headers : Headers.store.
Variable brotli : bool.
Variable urlopen : pool_manager -> urlopen_args -> raw_exc + u3_response.

Local Abbreviation prepare := (prepare_dispatch cookie_attr parse_url socks_create_proxy_args std_headers brotli).
Local Abbreviation finish := (complete extract_cookies jar_truthy).
Local Abbreviation handle :=
  (_real_handle cookie_attr extract_cookies jar_truthy parse_url socks_create_proxy_args std_headers brotli urlopen).

Local Abbreviation create_pm := (@_create_pm Jar parse_url socks_create_proxy_args).
Local Abbreviation pool_of := (@get_pool Jar parse_url socks_create_proxy_args).
Local Abbreviation pools_after := (@get_pools Jar parse_url socks_create_proxy_args).

Implicit Types (self : @Urllib3RH Jar) (p : option string).

Lemma get_pool_next_id self p :
  (next_id self <= next_id (pool_of self p).2)%nat.
Proof.
  destruct (pool_of self p) as [[e|pm] s'] eqn:E; cbn [snd].
  - apply get_pool_inl in E as [_ ->]. lia.
  - apply get_pool_returned in E as (_ & -> & _). lia.
Qed.

Lemma registry_ok_initialize jar prm : registry_ok (@_initialize Jar jar prm).
Proof. split; intros *; cbn [_initialize pools]; now rewrite lookup_empty. Qed.

(** a pool that [get_pool] has just stored is new and fits its key *)
Lemma get_pool_new_entry self p k pm :
  pools (pool_of self p).2 !! k = Some pm -> pools self !! k = None ->
  k = pool_key p /\ pool_fits_key k pm /\ pm_id pm = next_id self
  /\ next_id (pool_of self p).2 = S (next_id self).
Proof.
  intros Hl Hn. apply get_pool_lookup in Hl as [Hl|(-> & _ & E & Hc)]; [congruence|].
  split; [reflexivity|].
  destruct (create_pm_cases parse_url socks_create_proxy_args self p)
    as [(e' & Ec)|(new & Ec & Hid & Hfit)]; rewrite Ec in Hc; [discriminate|].
  cbn [fst] in Hc. injection Hc as ->. split; [exact Hfit|]. split; [exact Hid|].
  now apply get_pool_returned in E as (_ & E & _).
Qed.

Lemma registry_ok_get_pool self p :
  registry_ok self -> registry_ok (pool_of self p).2.
Proof.
  intros [Hfit Hinj]. pose proof (get_pool_next_id self p) as Hle.
  assert (Hcase : forall k pm, pools (pool_of self p).2 !! k = Some pm ->
            pools self !! k = Some pm
            \/ (pools self !! k = None /\ k = pool_key p /\ pool_fits_key k pm
                /\ pm_id pm = next_id self
                /\ next_id (pool_of self p).2 = S (next_id self))).
  { intros k pm Hl. destruct (pools self !! k) as [o|] eqn:Eo.
    - left. pose proof (get_pool_keeps parse_url socks_create_proxy_args self p k o Eo).
      congruence.
    - right. split; [reflexivity|]. now apply get_pool_new_entry. }
  split.
  - intros k pm Hl. destruct (Hcase k pm Hl) as [Ho|(_ & _ & Hf & Hid & Hn)].
    + destruct (Hfit k pm Ho). split; [assumption|lia].
    + split; [exact Hf|lia].
  - intros k1 k2 pm1 pm2 H1 H2 Heq.
    destruct (Hcase k1 pm1 H1) as [O1|(_ & K1 & _ & I1 & _)];
      destruct (Hcase k2 pm2 H2) as [O2|(_ & K2 & _ & I2 & _)].
    + eauto.
    + destruct (Hfit k1 pm1 O1) as [_ Hlt]. lia.
    + destruct (Hfit k2 pm2 O2) as [_ Hlt]. lia.
    + congruence.
Qed.

Lemma registry_ok_get_pools ps : forall self,
  registry_ok self -> registry_ok (pools_after self ps).
Proof.
  induction ps as [|p ps IH]; intros self H; [exact H|].
  cbn [get_pools]. apply IH. now apply registry_ok_get_pool.
Qed.

(** X5: in a registry that was filled by [get_pool] alone, the pool stored
    under an identity was built for that identity: under a key other than
    the no-proxy sentinel it is a proxy manager for exactly that proxy URL,
    and it tunnels through SOCKS exactly when the identity starts with
    [socks]. *)
Theorem registry_pools_fit_their_identity (jar : option Jar) (prm : ydl_params)
    (ps : list (option string)) (k : string) (pm : pool_manager) :
  pools (pools_after (_initialize jar prm) ps) !! k = Some pm ->
  pool_fits_key k pm
  /\ (k <> "__noproxy__" -> pm_kind_of pm = proxy_manager_kind k)
  /\ ((exists s, pm_kind_of pm = SocksProxyManager s) <-> Py.startswith "socks" k = true).
Proof.
  intros Hl.
  destruct (registry_ok_get_pools ps _ (registry_ok_initialize jar prm)) as [Hfit _].
  destruct (Hfit k pm Hl) as [Hk _]. split; [exact Hk|]. split.
  - intros Hne. destruct Hk as [[-> _]|[_ H]]; [congruence|exact H].
  - destruct Hk as [[-> Hp]|[_ Hp]]; rewrite Hp.
    + split; [intros [s Hs]; discriminate|discriminate].
    + unfold proxy_manager_kind. destruct (Py.startswith "socks" k).
      * split; eauto.
      * split; [intros [s Hs]; discriminate|discriminate].
Qed.

(** X6: no pool object serves two identities: in a registry filled by
    [get_pool] alone, the pools stored under two different keys are
    different objects. *)
Theorem distinct_identities_distinct_pools (jar : option Jar) (prm : ydl_params)
    (ps : list (option string)) (k1 k2 : string) (pm1 pm2 : pool_manager) :
  pools (pools_after (_initialize jar prm) ps) !! k1 = Some pm1 ->
  pools (pools_after (_initialize jar prm) ps) !! k2 = Some pm2 ->
  k1 <> k2 ->
  pm_id pm1 <> pm_id pm2 /\ pm1 <> pm2.
Proof.
  intros H1 H2 Hne.
  destruct (registry_ok_get_pools ps _ (registry_ok_initialize jar prm)) as [_ Hinj].
  assert (Hid : pm_id pm1 <> pm_id pm2) by (intros Heq; apply Hne; eauto).
  split; [exact Hid|]. intros ->. now apply Hid.
Qed.

(** *** What [_real_handle] does to the handler *)

Lemma prepare_failure_keeps_self self request x self' :
  prepare self request = inl (x, self') -> self' = self.
Proof.
  unfold prepare_dispatch. destruct (cookiejar self) as [jar|]; [|now intros [= _ <-]].
  destruct (resolve_proxy _ _) as [e|proxy]; [now intros [= _ <-]|].
  destruct (pool_of self proxy) as [[e|pm] s'] eqn:E; [|discriminate].
  apply get_pool_inl in E as [_ ->]. now intros [= _ <-].
Qed.

Lemma complete_state d result :
  (finish d result).2 = d_self d
  \/ exists jar', (finish d result).2 = set_cookiejar (d_self d) jar'.
Proof.
  unfold complete. destruct result as [e|r].
  - destruct (dispatch_except _); now left.
  - destruct (Urllib3ResponseAdapter r); [|now left].
    destruct (negb _); [now left|].
    destruct (jar_truthy (d_jar d)); [right; eauto|now left].
Qed.

(** the handler after a call, seen from the handler before it *)
Lemma handle_state self request :
  (handle self request).2 = self
  \/ exists proxy,
       pools (handle self request).2 = pools (pool_of self proxy).2
       /\ next_id (handle self request).2 = next_id (pool_of self proxy).2
       /\ params (handle self request).2 = params self
       /\ is_Some (cookiejar (handle self request).2).
Proof.
  unfold _real_handle. destruct (prepare self request) as [[x s']|d] eqn:E.
  - left. cbn [snd]. exact (prepare_failure_keeps_self _ _ _ _ E).
  - right. destruct (prepare_inv _ _ _ _ _ _ _ _ E) as (proxy & Hj & _ & _ & _ & Hs & _).
    pose proof (prepare_keeps_cookiejar _ _ _ _ _ _ _ _ E) as Hk.
    exists proxy.
    destruct (get_pool_params parse_url socks_create_proxy_args self proxy) as [Hp _].
    destruct (complete_state d (urlopen (d_pool d) (d_args d))) as [-> | [jar' ->]];
      cbn [set_cookiejar pools next_id params cookiejar].
    + rewrite Hk, Hs, Hp. repeat split; eauto.
    + rewrite Hs, Hp. repeat split; eauto.
Qed.

(** X7: whatever the outcome, [_real_handle] leaves the options it was set
    up with alone, keeps every pool of the registry under its key, adds at
    most one pool, and keeps the registry well formed. *)
Theorem handle_keeps_the_registry self request :
  let self' := (handle self request).2 in
  params self' = params self
  /\ (forall k pm, pools self !! k = Some pm -> pools self' !! k = Some pm)
  /\ (size (pools self') <= S (size (pools self)))%nat
  /\ (registry_ok self -> registry_ok self').
Proof.
  intros self'. subst self'.
  destruct (handle_state self request) as [-> | (proxy & Hp & Hn & Hprm & _)].
  { split; [reflexivity|]. split; [auto|]. split; [lia|auto]. }
  split; [exact Hprm|]. split; [|split].
  - intros k pm Hl. rewrite Hp. now apply get_pool_keeps.
  - rewrite Hp. destruct (pool_of self proxy) as [[e|pm] s'] eqn:E; cbn [snd].
    + apply get_pool_inl in E as [_ ->]. lia.
    + apply get_pool_returned in E as (_ & _ & [[_ ->]|(Hl & _ & ->)]); [lia|].
      rewrite map_size_insert_None by exact Hl. lia.
  - intros Hok. destruct (registry_ok_get_pool self proxy Hok) as [Hfit Hinj].
    split.
    + intros k pm Hl. rewrite Hn. rewrite Hp in Hl. eauto.
    + intros k1 k2 pm1 pm2 H1 H2. rewrite Hp in H1, H2. eauto.
Qed.

End Registry.

(** ** Dispatch *)

Section Dispatch.

Context {Jar : Type}.
Variable cookie_attr : Jar -> Request -> option string.
Variable extract_cookies : Jar -> Response -> Request -> Jar.
Variable jar_truthy : Jar -> bool.
Variable parse_url : string -> raw_exc + U3Url.Url.
Variable socks_create_proxy_args : string -> option raw_exc.
Variable std_headers : Headers.store.
Variable brotli : bool.
Variable urlopen : pool_manager -> urlopen_args -> raw_exc + u3_response.

Local Abbreviation prepare := (prepare_dispatch cookie_attr parse_url socks_create_proxy_args std_headers brotli).
Local Abbreviation finish := (complete extract_cookies jar_truthy).
Local Abbreviation handle :=
  (_real_handle cookie_attr extract_cookies jar_truthy parse_url socks_create_proxy_args std_headers brotli urlopen).

Implicit Types (self : @Urllib3RH Jar).

Lemma complete_pools d result : pools (finish d result).2 = pools (d_self d).
Proof.
  destruct (complete_state extract_cookies jar_truthy d result) as [-> | [jar' ->]];
    reflexivity.
Qed.

(** X9: a pool outlives the call that created it, also a failed one: when a
    request was dispatched, a later request whose resolved proxy has the same
    identity is dispatched to the same pool object, whatever the first call
    returned or raised. *)
Theorem later_request_reuses_the_pool self req1 req2 d1 d2 px1 px2 :
  prepare self req1 = inr d1 ->
  prepare (handle self req1).2 req2 = inr d2 ->
  resolve_proxy parse_url req1 = inr px1 ->
  resolve_proxy parse_url req2 = inr px2 ->
  pool_key px1 = pool_key px2 ->
  d_pool d2 = d_pool d1.
Proof.
  intros H1 H2 R1 R2 Hk.
  destruct (prepare_pool_registered _ _ _ _ _ _ _ _ _ H1 R1) as [_ Hreg].
  destruct (prepare_pool_registered _ _ _ _ _ _ _ _ _ H2 R2) as [G2 _].
  assert (Hl : pools (handle self req1).2 !! pool_key px2 = Some (d_pool d1)).
  { rewrite (handle_unfold _ _ _ _ _ _ _ _ _ _ _ H1), complete_pools, <- Hk.
    exact Hreg. }
  apply get_pool_returned in G2 as (_ & _ & [[Hl' _]|(Hl' & _)]); congruence.
Qed.

(** X10: the proxy is resolved outside the [try]: when [parse_url] raises on
    the request's proxy, or on the target URL whose scheme a scheme-less
    proxy needs, that exception leaves [_real_handle] as it is, no pool is
    created and the handler is unchanged. *)
Theorem unparsable_proxy_escapes self request jar p e :
  cookiejar self = Some jar ->
  req_proxy request = Some p -> Py.truthy p = true ->
  (parse_url p = inl e
   \/ exists pu, parse_url p = inr pu /\ U3Url.scheme pu = None
                 /\ parse_url (req_url request) = inl e) ->
  handle self request = (Raise (Raw e), self).
Proof.
  intros Hj Hp Ht Hcase. unfold _real_handle, prepare_dispatch. rewrite Hj.
  rewrite resolve_proxy_add_cookie. unfold resolve_proxy, str_truthy. rewrite Hp, Ht.
  destruct Hcase as [-> | (pu & -> & -> & ->)]; reflexivity.
Qed.

(** X11: a request without a proxy, [None] or the empty string, is
    dispatched without [parse_url] being consulted, to the pool stored under
    the sentinel ['__noproxy__']; when the registry has no such entry yet,
    that pool is a plain [PoolManager] built in this call. *)
Theorem request_without_proxy_uses_sentinel_pool self request jar :
  cookiejar self = Some jar ->
  str_truthy (req_proxy request) = false ->
  exists d,
    prepare self request = inr d
    /\ resolve_proxy parse_url request = inr (req_proxy request)
    /\ pools (d_self d) !! "__noproxy__" = Some (d_pool d)
    /\ (pools self !! "__noproxy__" = None ->
        pm_kind_of (d_pool d) = PoolManager /\ pm_id (d_pool d) = next_id self).
Proof.
  intros Hj Hf.
  assert (Hr : resolve_proxy parse_url request = inr (req_proxy request))
    by (unfold resolve_proxy; now rewrite Hf).
  assert (Hkey : pool_key (req_proxy request) = "__noproxy__").
  { unfold pool_key, str_truthy in *. destruct (req_proxy request) as [s|]; [|reflexivity].
    now rewrite Hf. }
  unfold prepare_dispatch. rewrite Hj, resolve_proxy_add_cookie, Hr.
  destruct (create_pm_falsy parse_url socks_create_proxy_args self (req_proxy request) Hf)
    as (new & Hc & Hkind & Hid).
  destruct (get_pool parse_url socks_create_proxy_args self (req_proxy request))
    as [[e|pool] self'] eqn:Eg.
  { apply get_pool_inl in Eg as [Eg _]. congruence. }
  eexists. split; [reflexivity|]. split; [reflexivity|].
  cbn [d_self d_pool].
  apply get_pool_returned in Eg as (Hst & _ & Hcase). split.
  - rewrite <- Hkey. exact Hst.
  - intros Hn. rewrite <- Hkey in Hn.
    destruct Hcase as [[Hl _]|(_ & Hc' & _)]; [congruence|].
    assert (pool = new) as -> by congruence. now split.
Qed.

(** X12: [_real_handle] returns a response exactly when the adapter could be
    built and the status is in 200-299, and then it returns the adapted
    response itself: [release_conn] is not replaced, so releasing it hands
    the connection back to the pool. *)
Theorem success_returns_the_adapted_response self request d r res :
  prepare self request = inr d ->
  urlopen (d_pool d) (d_args d) = inr r ->
  ((handle self request).1 = Ret res
   <-> Urllib3ResponseAdapter r = Ret res /\ 200 <= u3_status r < 300)
  /\ ((handle self request).1 = Ret res ->
      _res res = r
      /\ forall w c, u3_connection r = Some c -> u3_release_conn_overridden r = false ->
           release_conn w (_res res)
           = ({| idle := c :: idle w; closed := closed w |}, with_connection r None)).
Proof.
  intros Hprep Hopen.
  rewrite (handle_unfold _ _ _ _ _ _ _ _ _ _ _ Hprep), Hopen. unfold complete.
  assert (Hiff : (match Urllib3ResponseAdapter r with
                  | Ret res0 =>
                      if negb ((200 <=? status res0) && (status res0 <? 300))
                      then (Raise (Typed (Urllib3HTTPError res0
                              (bool_decide (u3_retries_total r = Some 0)))), d_self d)
                      else (Ret res0,
                            if jar_truthy (d_jar d)
                            then set_cookiejar (d_self d)
                                   (extract_cookies (d_jar d) res0 (d_request d))
                            else d_self d)
                  | Raise x => (Raise x, d_self d)
                  end).1 = Ret res
                 <-> Urllib3ResponseAdapter r = Ret res /\ 200 <= u3_status r < 300).
  { destruct (Urllib3ResponseAdapter r) as [res0|x] eqn:Ea.
    - destruct (adapter_fields _ _ Ea) as (_ & Hst & _). rewrite Hst.
      destruct (Z.leb_spec 200 (u3_status r)), (Z.ltb_spec (u3_status r) 300);
        cbn [negb andb fst]; split;
        try (intros [= ->]; split; [reflexivity|lia]);
        try discriminate;
        try (intros [[= ->] ?]; reflexivity);
        try (intros [_ ?]; lia).
    - cbn [fst]. split; [discriminate|]. intros [? _]. discriminate. }
  split; [exact Hiff|].
  intros Hret. apply Hiff in Hret as [Ha _].
  destruct (adapter_fields _ _ Ha) as (Hres & _). split; [exact Hres|].
  intros w c Hc Ho. rewrite Hres. unfold release_conn. now rewrite Hc, Ho.
Qed.

End Dispatch.

(** ** Headers on the wire *)

Section DispatchedHeaders.

Context {Jar : Type}.
Variable cookie_attr : Jar -> Request -> option string.
Variable parse_url : string -> raw_exc + U3Url.Url.
Variable socks_create_proxy_args : string -> option raw_exc.
Variable std_headers : Headers.store.
Variable brotli : bool.

Local Abbreviation prepare := (prepare_dispatch cookie_attr parse_url socks_create_proxy_args std_headers brotli).

Implicit Types (self : @Urllib3RH Jar).

(** the layers [_real_handle] merges, lowest first *)
Local Abbreviation merged self request :=
  (Headers.make [Some std_headers; http_headers (params self);
                 Some (req_headers request);
                 Some (req_unredirected_headers request)]).

Lemma contains_get_some n (h : Headers.store) :
  Headers.contains n h = true -> exists v, Headers.get n h = Some v.
Proof.
  unfold Headers.contains, Headers.get. intros H.
  destruct (List.find _ h) as [kv|] eqn:Ef; [eauto|].
  apply existsb_exists in H as (kv & Hin & Hkv).
  now rewrite (find_none _ _ Ef kv Hin) in Hkv.
Qed.

(** X13: with compression on, an [Accept-Encoding] header that the caller,
    the session options or the defaults set, in any spelling, is dispatched
    with its value, and only when there is none is the supported list
    advertised; whatever the compression flag, every other header is
    dispatched as merged. *)
Theorem accept_encoding_with_compression self request d :
  prepare self request = inr d ->
  (forall name, Headers.name_eqb name "Accept-Encoding" = false ->
      Headers.get name (arg_headers (d_args d))
      = Headers.get name (merged self (d_request d)))
  /\ (req_compression request = true ->
      Headers.get "Accept-Encoding" (arg_headers (d_args d))
      = Some (default (Py.join ", " (SUPPORTED_ENCODINGS brotli))
                (Headers.get "Accept-Encoding" (merged self (d_request d))))).
Proof.
  intros Hprep.
  destruct (prepare_inv _ _ _ _ _ _ _ _ Hprep) as (proxy & _ & Hr & _ & _ & _ & Ha).
  destruct (add_cookie_header_fields cookie_attr (d_jar d) request) as (_ & _ & Hc & _).
  rewrite <- Hr in Hc. rewrite Ha. cbn [arg_headers make_urlopen_args].
  unfold dispatch_headers. set (m := Headers.make _). split.
  - intros name Hn.
    assert (Hn' : Headers.name_eqb name "accept-encoding" = false).
    { unfold Headers.name_eqb in *. exact Hn. }
    assert (H1 : Headers.get name
               (if negb (Headers.contains "Accept-Encoding" m)
                then Headers.set "Accept-Encoding"
                       (Py.join ", " (SUPPORTED_ENCODINGS brotli)) m
                else m) = Headers.get name m).
    { destruct (negb _); [|reflexivity]. now apply get_set_other. }
    destruct (negb (req_compression (d_request d))); [|exact H1].
    now rewrite get_del_other.
  - intros Hcomp. rewrite Hc, Hcomp. cbn [negb].
    destruct (Headers.contains "Accept-Encoding" m) eqn:Ec; cbn [negb].
    + destruct (contains_get_some _ _ Ec) as [v ->]. reflexivity.
    + rewrite get_set_same, (get_none_iff _ _ Ec). reflexivity.
Qed.

Lemma not_contains_lower_key n (u : Headers.store) :
  Headers.contains n u = false -> Py.lower n ∉ List.map Py.lower (Headers.keys u).
Proof.
  unfold Headers.contains, Headers.keys, Headers.name_eqb. intros H Hin.
  apply list_elem_of_In, in_map_iff in Hin as (k & Hk & Hin).
  apply in_map_iff in Hin as ([k' v] & <- & Hin).
  assert (existsb (fun kv => bool_decide (Py.lower n = Py.lower kv.1)) u = true).
  { apply existsb_exists. exists (k', v). split; [exact Hin|].
    apply bool_decide_eq_true. now rewrite Hk. }
  congruence.
Qed.

Local Abbreviation strip remove :=
  (List.filter (fun kv : string * string => negb (bool_decide (Py.lower kv.1 ∈ remove)))).

(** the header set after a redirect is the one given, without the content
    headers on a 303, and with or without the names handed to [Retry] *)
Lemma redirect_headers_inv manager retries url status location
    (h applied : Headers.store) :
  redirect_headers parse_url manager retries url status location h = inr applied ->
  let h0 := if status =? 303 then U3.prepare_for_method_change h else h in
  applied = h0
  \/ applied = strip (List.map Py.lower (remove_headers_on_redirect retries)) h0.
Proof.
  unfold redirect_headers. destruct (hop_pool parse_url manager url); [discriminate|].
  destruct (List.map Py.lower (remove_headers_on_redirect retries)) as [|r0 rs].
  - intros [= <-]. now left.
  - destruct (is_same_host parse_url _ location) as [e|[|]]; [discriminate| |].
    + intros [= <-]. now left.
    + intros [= <-]. now right.
Qed.

(** X14: a redirect removes nothing but the unredirected headers and, when
    it is a 303, the content headers: any other header is applied to the
    redirected request with the value that was dispatched, wherever the
    redirect leads, also an [Authorization] or [Cookie] header set as an
    ordinary header. *)
Theorem redirect_forwards_ordinary_headers self request d name
    (url : string) (status : Z) (location : string) (applied : Headers.store) :
  prepare self request = inr d ->
  Headers.contains name (req_unredirected_headers (d_request d)) = false ->
  status <> 303 \/ U3.content_specific name = false ->
  redirect_headers parse_url (pm_kind_of (d_pool d)) (arg_retries (d_args d))
    url status location (arg_headers (d_args d)) = inr applied ->
  Headers.get name applied = Headers.get name (arg_headers (d_args d)).
Proof.
  intros Hprep Hn Hst Hred.
  destruct (prepare_inv _ _ _ _ _ _ _ _ Hprep) as (proxy & _ & _ & _ & _ & _ & Ha).
  assert (Hkeep : Py.lower name
                  ∉ List.map Py.lower (remove_headers_on_redirect (arg_retries (d_args d)))).
  { rewrite Ha. cbn [arg_retries make_urlopen_args]. unfold make_retries.
    cbn [remove_headers_on_redirect]. now apply not_contains_lower_key. }
  assert (H0 : Headers.get name
                 (if status =? 303
                  then U3.prepare_for_method_change (arg_headers (d_args d))
                  else arg_headers (d_args d))
               = Headers.get name (arg_headers (d_args d))).
  { destruct (Z.eqb_spec status 303) as [E|E]; [|reflexivity].
    destruct Hst as [Hst|Hst]; [contradiction|]. now apply method_change_get. }
  apply redirect_headers_inv in Hred as [-> | ->]; [exact H0|].
  rewrite strip_get by exact Hkeep. exact H0.
Qed.

(** X15: the cookie that the store adds to a request is dispatched.  On a
    redirect it is kept when the pool that served the redirected request
    serves the location too, whatever the status, and it is not applied to
    the next request when the location lies elsewhere. *)
Theorem injected_cookie_stays_on_host self request d v
    (url : string) (status : Z) (location : string) (conn : U3.conn_pool) (same : bool) :
  prepare self request = inr d ->
  cookie_attr (d_jar d) request = Some v ->
  has_cookie_header request = false ->
  hop_pool parse_url (pm_kind_of (d_pool d)) url = inr conn ->
  is_same_host parse_url conn location = inr same ->
  let sent := arg_headers (d_args d) in
  let retries := arg_retries (d_args d) in
  Headers.get "Cookie" sent = Some v
  /\ exists applied,
       redirect_headers parse_url (pm_kind_of (d_pool d)) retries url status location sent
       = inr applied
       /\ (same = true -> Headers.get "Cookie" applied = Some v)
       /\ (same = false -> Headers.contains "Cookie" applied = false).
Proof.
  intros Hprep Hv Hh Hpool Hsame sent retries. subst sent retries.
  destruct (prepare_inv _ _ _ _ _ _ _ _ Hprep) as (proxy & _ & Hr & _ & _ & _ & Ha).
  assert (Hsent : Headers.get "Cookie" (arg_headers (d_args d)) = Some v).
  { rewrite Ha, Hr. cbn [arg_headers make_urlopen_args].
    now apply cookie_header_dispatched. }
  split; [exact Hsent|]. eexists.
  split; [exact (redirect_headers_applied _ _ _ _ status _ _ _ _ Hpool Hsame)|]. split.
  - intros ->. destruct (status =? 303); [|exact Hsent].
    now rewrite method_change_get.
  - intros ->. apply strip_contains. rewrite Ha.
    cbn [arg_retries make_urlopen_args]. unfold make_retries.
    cbn [remove_headers_on_redirect]. apply contains_lower_key.
    rewrite Hr. unfold add_cookie_header. rewrite Hv, Hh.
    cbn [req_unredirected_headers]. rewrite contains_set.
    apply orb_true_iff. right. reflexivity.
Qed.

End DispatchedHeaders.

(** ** The encodings on offer *)

Section Encodings.

(** X17: the import-time guard on brotli.  Without a brotli module ['br'] is
    never on offer; with the [brotli] module it always is; with [brotlicffi]
    it is on offer exactly when the urllib3 version string is not below
    ['1.26.9'] as a string, so it is dropped for the versions 1.26.10 to
    1.26.19 and kept from 1.26.9 on and for every version 2.x. *)
Theorem brotli_guard_compares_strings (version rest : string) :
  brotli_supported None version = false
  /\ brotli_supported (Some "brotli") version = true
  /\ brotli_supported (Some "brotlicffi") version = negb (str_lt version "1.26.9")
  /\ brotli_supported (Some "brotlicffi") ("1.26.1" +:+ rest) = false
  /\ brotli_supported (Some "brotlicffi") ("1.26.9" +:+ rest) = true
  /\ brotli_supported (Some "brotlicffi") ("2." +:+ rest) = true
  /\ SUPPORTED_ENCODINGS (brotli_supported (Some "brotlicffi") ("1.26.1" +:+ rest))
     = ["gzip"; "deflate"].
Proof.
  repeat split; try reflexivity. destruct rest; reflexivity.
Qed.

End Encodings.

(** ** The further properties on concrete requests *)

Section ConcreteFurther.

Import Scenario.

Local Abbreviation prepare_c :=
  (prepare_dispatch cookie_attr parse_url socks_create_proxy_args std_headers true).
Local Abbreviation finish_c := (complete extract_cookies jar_truthy).
Local Abbreviation pools_after := (get_pools parse_url socks_create_proxy_args).

Lemma error_kinds_by_path_witness :
  kind_of (ReadTimeoutError read_timeout)
    ∈ [KTransport; KReadTimeout; KIncompleteRead; KTLS]
  /\ (forall d : @dispatch Jar,
        kind_of (ProxyError (str_ proxy_error) proxy_error) ∈ translated_kinds)
  /\ (forall d : @dispatch Jar,
        kind_of (Urllib3HTTPError
                   {| _res := bad_gateway; _url := Some "https://example.com/watch";
                      headers := u3_headers bad_gateway; status := 502;
                      http_version := 11 |} false) = KHTTPStatus).
Proof.
  destruct (error_kinds_by_path extract_cookies jar_truthy) as (H1 & H2 & H3).
  split; [|split].
  - exact (H1 read_timeout _ eq_refl).
  - intros d. exact (H2 d (max_retry proxy_error) _ _ eq_refl).
  - intros d. exact (H3 d bad_gateway _ _ eq_refl).
Defined.

Lemma typed_error_wraps_the_fault_witness :
  (forall d : @dispatch Jar,
      error_cause (ReadTimeoutError read_timeout)
      = Some (unwrap_max_retry (max_retry read_timeout)))
  /\ error_cause (IncompleteRead (Py.PyInt 4) (Py.PyInt 6) (protocol_error_incomplete 4 6))
     = Some (protocol_error_incomplete 4 6).
Proof.
  destruct (typed_error_wraps_the_fault extract_cookies jar_truthy) as (H1 & H2).
  split.
  - intros d. exact (H1 d (max_retry read_timeout) _ _ eq_refl).
  - exact (H2 (protocol_error_incomplete 4 6) _ eq_refl).
Defined.

Lemma release_happens_once_witness :
  let w := {| idle := []; closed := [] |} in
  run_ops [OpReleaseConn; OpReleaseConn; OpClose] w (with_release_override bad_gateway)
  = ({| idle := []; closed := [conn1] |},
     with_connection (with_release_override bad_gateway) None).
Proof.
  intros w.
  exact (proj2 (release_happens_once (with_release_override bad_gateway) w
                  [OpReleaseConn; OpClose]) conn1 eq_refl eq_refl).
Defined.

Lemma registry_pools_fit_their_identity_witness :
  exists pm,
    pools (pools_after (@_initialize Jar None ydl) three_identities)
      !! "socks5://127.0.0.1:9050" = Some pm
    /\ pm_kind_of pm = SocksProxyManager "socks5://127.0.0.1:9050".
Proof.
  destruct (pools (pools_after (@_initialize Jar None ydl) three_identities)
              !! "socks5://127.0.0.1:9050") as [pm|] eqn:E;
    [|vm_compute in E; discriminate].
  exists pm. split; [reflexivity|].
  destruct (registry_pools_fit_their_identity parse_url socks_create_proxy_args
              None ydl three_identities _ pm E)
    as (_ & H & _).
  apply H. discriminate.
Defined.

Lemma distinct_identities_distinct_pools_witness :
  exists pm1 pm2,
    pools (pools_after (@_initialize Jar None ydl) three_identities)
      !! "__noproxy__" = Some pm1
    /\ pools (pools_after (@_initialize Jar None ydl) three_identities)
         !! "http://10.0.0.1:3128" = Some pm2
    /\ pm1 <> pm2.
Proof.
  destruct (pools (pools_after (@_initialize Jar None ydl) three_identities)
              !! "__noproxy__") as [pm1|] eqn:E1; [|vm_compute in E1; discriminate].
  destruct (pools (pools_after (@_initialize Jar None ydl) three_identities)
              !! "http://10.0.0.1:3128") as [pm2|] eqn:E2;
    [|vm_compute in E2; discriminate].
  exists pm1, pm2. split; [reflexivity|]. split; [reflexivity|].
  refine (proj2 (distinct_identities_distinct_pools parse_url socks_create_proxy_args
                   None ydl three_identities _ _ pm1 pm2 E1 E2 _)).
  discriminate.
Defined.

Lemma handle_keeps_the_registry_witness :
  let req := request "https://example.com/watch" (Some "1.2.3.4:1080") true in
  registry_ok handler
  /\ registry_ok (handle (urlopen_raises (max_retry connection_aborted)) handler req).2.
Proof.
  intros req.
  assert (H : registry_ok handler) by (apply registry_ok_initialize).
  split; [exact H|].
  exact (proj2 (proj2 (proj2
           (handle_keeps_the_registry cookie_attr extract_cookies jar_truthy parse_url
              socks_create_proxy_args std_headers true
              (urlopen_raises (max_retry connection_aborted)) handler req))) H).
Defined.

Lemma later_request_reuses_the_pool_witness :
  let req1 := request "https://example.com/watch" (Some "1.2.3.4:1080") true in
  let req2 := request "https://example.com/other" (Some "https://1.2.3.4:1080") false in
  exists d1 d2,
    prepare_c handler req1 = inr d1
    /\ prepare_c (handle (urlopen_raises (max_retry connection_aborted)) handler req1).2 req2
       = inr d2
    /\ d_pool d2 = d_pool d1.
Proof.
  intros req1 req2.
  destruct (prepare_c handler req1) as [x|d1] eqn:E1; [vm_compute in E1; discriminate|].
  destruct (prepare_c (handle (urlopen_raises (max_retry connection_aborted)) handler req1).2
              req2) as [x|d2] eqn:E2; [vm_compute in E2; discriminate|].
  exists d1, d2. split; [reflexivity|]. split; [reflexivity|].
  exact (later_request_reuses_the_pool cookie_attr extract_cookies jar_truthy parse_url
           socks_create_proxy_args std_headers true
           (urlopen_raises (max_retry connection_aborted)) handler req1 req2 d1 d2
           (Some "https://1.2.3.4:1080") (Some "https://1.2.3.4:1080")
           E1 E2 eq_refl eq_refl eq_refl).
Defined.

Lemma unparsable_proxy_escapes_witness :
  let req := request "https://example.com/watch" (Some "1.2.3.4:http") true in
  handle (urlopen_returns ok_response) handler req
  = (Raise (Raw (location_parse_error "1.2.3.4:http")), handler).
Proof.
  intros req.
  refine (unparsable_proxy_escapes cookie_attr extract_cookies jar_truthy parse_url
            socks_create_proxy_args std_headers true (urlopen_returns ok_response)
            handler req stored
            "1.2.3.4:http" _ eq_refl eq_refl eq_refl _).
  left. reflexivity.
Defined.

Lemma request_without_proxy_uses_sentinel_pool_witness :
  let req := request "https://example.com/watch" (Some EmptyString) true in
  exists d,
    prepare_c handler req = inr d
    /\ pools (d_self d) !! "__noproxy__" = Some (d_pool d)
    /\ pm_kind_of (d_pool d) = PoolManager.
Proof.
  intros req.
  destruct (request_without_proxy_uses_sentinel_pool cookie_attr parse_url socks_create_proxy_args std_headers
              true handler req stored eq_refl eq_refl) as (d & Hd & _ & Hl & Hk).
  exists d. split; [exact Hd|]. split; [exact Hl|].
  apply Hk. reflexivity.
Defined.

Lemma success_returns_the_adapted_response_witness :
  let req := request "https://example.com/watch" None true in
  exists res,
    (handle (urlopen_returns ok_response) handler req).1 = Ret res
    /\ _res res = ok_response
    /\ forall w, (release_conn w (_res res)).1
                 = {| idle := conn1 :: idle w; closed := closed w |}.
Proof.
  intros req.
  destruct (prepare_c handler req) as [x|d] eqn:E; [vm_compute in E; discriminate|].
  destruct (Urllib3ResponseAdapter ok_response) as [res|x] eqn:Ea;
    [|vm_compute in Ea; discriminate].
  destruct (success_returns_the_adapted_response cookie_attr extract_cookies jar_truthy
              parse_url socks_create_proxy_args std_headers true (urlopen_returns ok_response) handler req d
              ok_response res E eq_refl) as [Hiff Hret].
  assert (Hok : (handle (urlopen_returns ok_response) handler req).1 = Ret res).
  { apply Hiff. split; [exact Ea|]. cbn. lia. }
  exists res. split; [exact Hok|]. destruct (Hret Hok) as [Hr Hrel].
  split; [exact Hr|]. intros w. now rewrite (Hrel w conn1 eq_refl eq_refl).
Defined.

Lemma accept_encoding_with_compression_witness :
  let req := request "https://example.com/watch" None true in
  exists d,
    prepare_c handler req = inr d
    /\ Headers.get "accept-encoding" (arg_headers (d_args d)) = Some "identity"
    /\ Headers.get "x-test" (arg_headers (d_args d)) = Some "1".
Proof.
  intros req.
  destruct (prepare_c handler req) as [x|d] eqn:E; [vm_compute in E; discriminate|].
  exists d. split; [reflexivity|].
  destruct (accept_encoding_with_compression cookie_attr parse_url socks_create_proxy_args std_headers true
              handler req d E) as [Hother Hae].
  specialize (Hae eq_refl). specialize (Hother "x-test" eq_refl).
  vm_compute in E. injection E as <-.
  split; [exact Hae|exact Hother].
Defined.

Lemma redirect_forwards_ordinary_headers_witness :
  let req := request "https://example.com/watch" None true in
  exists d applied,
    prepare_c handler req = inr d
    /\ redirect_headers parse_url (pm_kind_of (d_pool d)) (arg_retries (d_args d))
         "https://example.com/watch" 303 "https://other.example/landing"
         (arg_headers (d_args d)) = inr applied
    /\ Headers.get "X-Test" applied = Some "1".
Proof.
  intros req.
  destruct (prepare_c handler req) as [x|d] eqn:E; [vm_compute in E; discriminate|].
  destruct (redirect_headers parse_url (pm_kind_of (d_pool d)) (arg_retries (d_args d))
              "https://example.com/watch" 303 "https://other.example/landing"
              (arg_headers (d_args d))) as [e|applied] eqn:Er.
  { vm_compute in E. injection E as <-. vm_compute in Er. discriminate. }
  exists d, applied. split; [reflexivity|]. split; [exact Er|].
  assert (Hn : Headers.contains "X-Test" (req_unredirected_headers (d_request d)) = false).
  { vm_compute in E. injection E as <-. reflexivity. }
  rewrite (redirect_forwards_ordinary_headers cookie_attr parse_url socks_create_proxy_args
             std_headers true handler req d "X-Test" _ 303 _ applied E Hn
             (or_intror eq_refl) Er).
  vm_compute in E. injection E as <-. reflexivity.
Defined.

Lemma injected_cookie_stays_on_host_witness :
  let req := request "https://example.com/watch" None true in
  let conn := {| U3.cp_scheme := "https"; U3.cp_host := "example.com";
                 U3.cp_port := Some 443 |} in
  exists d,
    prepare_c handler req = inr d
    /\ Headers.get "Cookie" (arg_headers (d_args d)) = Some "sid=0"
    /\ (exists applied,
          redirect_headers parse_url (pm_kind_of (d_pool d)) (arg_retries (d_args d))
            "https://example.com/watch" 302 "https://example.com/next"
            (arg_headers (d_args d)) = inr applied
          /\ Headers.get "Cookie" applied = Some "sid=0")
    /\ (exists applied,
          redirect_headers parse_url (pm_kind_of (d_pool d)) (arg_retries (d_args d))
            "https://example.com/watch" 302 "http://example.com/next"
            (arg_headers (d_args d)) = inr applied
          /\ Headers.contains "Cookie" applied = false).
Proof.
  intros req conn.
  destruct (prepare_c handler req) as [x|d] eqn:E; [vm_compute in E; discriminate|].
  exists d. split; [reflexivity|].
  assert (Hj : d_jar d = stored) by (vm_compute in E; injection E as <-; reflexivity).
  assert (Hv : cookie_attr (d_jar d) req = Some "sid=0") by (rewrite Hj; reflexivity).
  assert (Hp : hop_pool parse_url (pm_kind_of (d_pool d)) "https://example.com/watch"
               = inr conn).
  { vm_compute in E. injection E as <-. vm_compute. reflexivity. }
  pose proof (injected_cookie_stays_on_host cookie_attr parse_url socks_create_proxy_args
                std_headers true handler req d "sid=0" "https://example.com/watch" 302
                "https://example.com/next" conn true E Hv eq_refl Hp eq_refl) as H1.
  pose proof (injected_cookie_stays_on_host cookie_attr parse_url socks_create_proxy_args
                std_headers true handler req d "sid=0" "https://example.com/watch" 302
                "http://example.com/next" conn false E Hv eq_refl Hp eq_refl) as H2.
  cbv zeta in H1, H2.
  destruct H1 as (Hsent & a1 & Ha1 & Hk & _). destruct H2 as (_ & a2 & Ha2 & _ & Hs).
  split; [exact Hsent|]. split.
  - exists a1. split; [exact Ha1|now apply Hk].
  - exists a2. split; [exact Ha2|now apply Hs].
Defined.

End ConcreteFurther.
